(** * rootpy: file wrapper and pad/canvas glue over the ROOT toolkit

    A shallow embedding of [rootpy/io.py] and [rootpy/plotting/canvas.py].
    Python code that threads effects through the toolkit is written in a
    state-and-exception monad; Python numbers are unbounded integers and
    binary64 floats; object identity ([is]) is identity of object handles. *)

From Stdlib Require Import ZArith String List Lia.
From Stdlib Require Import Floats.PrimFloat Floats.SpecFloat Floats.FloatOps.
From stdpp Require Import base option gmap sets list strings.

Local Open Scope Z_scope.

(** ** Python values, exceptions and the effect monad *)

Module Py.

Inductive exn :=
| ValueError (msg : string)
| IOError (msg : string)
| AttributeError (msg : string)
| TypeError (msg : string)
| OverflowError (msg : string)
| ReferenceError (msg : string).

Inductive outcome (A : Type) :=
| Return (a : A)
| Raise (e : exn).
Arguments Return {A} a.
Arguments Raise {A} e.

(** A computation over a store [S]: it ends in a value or in a raised
    exception, and in both cases leaves a store behind. *)
Definition M (S A : Type) : Type := S -> outcome A * S.

Definition ret {S A} (a : A) : M S A := fun s => (Return a, s).

Definition raise {S A} (e : exn) : M S A := fun s => (Raise e, s).

Definition bind {S A B} (m : M S A) (k : A -> M S B) : M S B :=
  fun s =>
    match m s with
    | (Return a, s') => k a s'
    | (Raise e, s') => (Raise e, s')
    end.

Definition gets {S A} (f : S -> A) : M S A := fun s => (Return (f s), s).

Definition modify {S} (f : S -> S) : M S unit := fun s => (Return tt, f s).

(** A call into the C++ toolkit that cannot raise a Python exception. *)
Definition native {S A} (f : S -> A * S) : M S A :=
  fun s => let '(a, s') := f s in (Return a, s').

Definition is_raise {A} (o : outcome A) : bool :=
  match o with Raise _ => true | Return _ => false end.

(** Numbers: Python [int] and [float]. *)
Inductive num :=
| PyInt (z : Z)
| PyFloat (f : float).

(** Values that travel through [*args] and [**kwargs]. *)
Inductive pyval :=
| PyNone
| PyStr (s : string)
| PyNum (n : num).

(** [float(z)]: round to nearest even, [OverflowError] past the largest
    finite double. *)
Definition py_float (z : Z) : outcome float :=
  let f := SF2Prim (binary_normalize prec emax z 0 false) in
  if PrimFloat.is_infinity f
  then Raise (OverflowError "int too large to convert to float")
  else Return f.

(** [int(f)]: truncation toward zero. *)
Definition float_trunc (f : float) : outcome Z :=
  match Prim2SF f with
  | S754_zero _ => Return 0
  | S754_finite s m e =>
      let a := match e with
               | Z0 => Zpos m
               | Zpos p => Zpos m * 2 ^ Zpos p
               | Zneg p => Z.quot (Zpos m) (2 ^ Zpos p)
               end in
      Return (if s then - a else a)
  | S754_infinity _ =>
      Raise (OverflowError "cannot convert float infinity to integer")
  | S754_nan => Raise (ValueError "cannot convert float NaN to integer")
  end.

Definition py_int (a : num) : outcome Z :=
  match a with
  | PyInt z => Return z
  | PyFloat f => float_trunc f
  end.

(** The binary [*] of Python on numbers: an [int] operand is converted with
    [float] when the other one is a [float]. *)
Definition py_mul (a b : num) : outcome num :=
  match a, b with
  | PyInt x, PyInt y => Return (PyInt (x * y))
  | PyFloat x, PyFloat y => Return (PyFloat (x * y)%float)
  | PyFloat x, PyInt y =>
      match py_float y with
      | Return fy => Return (PyFloat (x * fy)%float)
      | Raise e => Raise e
      end
  | PyInt x, PyFloat y =>
      match py_float x with
      | Return fx => Return (PyFloat (fx * y)%float)
      | Raise e => Raise e
      end
  end.

(** A chained product [a * b1 * ... * bn], evaluated left to right. *)
Fixpoint py_product (a : num) (bs : list num) : outcome num :=
  match bs with
  | [] => Return a
  | b :: bs' =>
      match py_mul a b with
      | Return ab => py_product ab bs'
      | Raise e => Raise e
      end
  end.

(** [int(a * b1 * ... * bn)] *)
Definition py_int_product (a : num) (bs : list num) : outcome Z :=
  match py_product a bs with
  | Return v => py_int v
  | Raise e => Raise e
  end.

(** [s] occurs in [t]. *)
Definition contains (t s : string) : Prop :=
  exists pre post : string, t = pre +:+ s +:+ post.

End Py.
Export Py.

Declare Scope py_scope.
Delimit Scope py_scope with py.
Notation "x <- m ;; k" := (bind m (fun x => k))
  (at level 100, m at next level, right associativity) : py_scope.
Notation "m ;; k" := (bind m (fun _ => k))
  (at level 100, right associativity) : py_scope.
Local Open Scope py_scope.

(** ** Objects

    A Python proxy is identified with the handle of the object it wraps; a
    null pointer (and [None]) is the empty reference, and it is falsy. *)

Abbreviation handle := positive (only parsing).
Abbreviation ref := (option positive) (only parsing).

Definition truthy (r : ref) : bool :=
  match r with Some _ => true | None => false end.

(** [a is b]. *)
Definition py_is (a b : ref) : bool := bool_decide (a = b).

(** The conversion helper of [rootpy]. Its code is outside the two files;
    it is an opaque capability: it maps the reference the toolkit returned
    to the reference of the enhanced object, and gives the reference back
    unchanged when there is no enhanced variant. *)
Class Conversion := { asrootpy : ref -> ref }.

(** ** rootpy/io.py *)

(** The persisted-container primitives of the toolkit, over the toolkit's
    own state [FS]. [TFile.Open] and [TFile.Get] are C++ calls that answer
    with a pointer, null when there is nothing to answer with; the
    constructor binds an overload from its positional arguments and may
    refuse them. *)
Class TFile_native (FS : Type) := {
  TFile_Open : string -> string -> FS -> ref * FS;
  TFile_Get : handle -> string -> FS -> ref * FS;
  TFile___init__ : handle -> list pyval -> M FS unit
}.

Module io.

Module File.

(** [def __init__(self, *args, **kwargs): ROOT.TFile.__init__(self, *args)] *)
Definition __init__ {FS} {N : TFile_native FS}
    (self : handle) (args : list pyval) (kwargs : list (string * pyval))
  : M FS unit :=
  TFile___init__ self args.

(** [def Get(self, name): return asrootpy(ROOT.TFile.Get(self, name))] *)
Definition Get {FS} {N : TFile_native FS} {C : Conversion}
    (self : handle) (name : string) : M FS ref :=
  r <- native (TFile_Get self name) ;;
  ret (asrootpy r).

End File.

(** [def open(filename, mode="")] *)
Definition open {FS} {N : TFile_native FS}
    (filename : string) (mode : string) : M FS ref :=
  file <- native (TFile_Open filename mode) ;;
  if negb (truthy file)
  then raise (IOError ("No such file: '" +:+ filename +:+ "'"))
  else ret file.

End io.

(** ** The drawing toolkit, as the wrappers see it

    [canvas.py] subclasses the toolkit's [TPad] and [TCanvas]. The store
    below holds what the wrappers read and write: the native surfaces and
    histograms, the global current pad, the defaults of the global style,
    the window manager's decoration, and the Python side of the process (the
    keepalive registry and the instance attributes the wrappers set). *)

Module ROOT.

(** The enhanced variant a surface converts to. *)
Inductive pyclass := Pad_class | Canvas_class.

Record TPad := mkTPad {
  surface_class : pyclass;
  fWNDC : float;
  fHNDC : float;
  fMother : ref;
  fCanvas : ref;
  fNumber : Z;
  fPrimitives : list handle;
  fBatch : bool;
  fCw : Z;
  fCh : Z;
  fWindowWidth : Z;
  fWindowHeight : Z;
  fWindowTopX : Z;
  fWindowTopY : Z
}.

Inductive axis_id := AxisX | AxisY | AxisZ.

Record TH1 := mkTH1 {
  h_dim : Z;
  h_args : list num;
  h_drawn : list string;
  h_xlimits : option (num * num);
  h_ylimits : option (num * num);
  h_zlimits : option (num * num)
}.

Record TStyle := mkTStyle {
  CanvasDefW : Z;
  CanvasDefH : Z;
  CanvasDefX : Z;
  CanvasDefY : Z
}.

Record World := mkWorld {
  pads : gmap handle TPad;
  hists : gmap handle TH1;
  gPad : ref;
  next_handle : handle;
  gROOT_batch : bool;
  gStyle : TStyle;
  decorations : Z * Z;
  KEEPALIVE : gmap ref (gset ref);
  attr__prev_pad : gmap handle ref;
  attr_size_includes_decorations : gmap handle bool
}.

Definition set_pads (v : gmap handle TPad) (w : World) : World :=
  mkWorld v (hists w) (gPad w) (next_handle w) (gROOT_batch w) (gStyle w)
    (decorations w) (KEEPALIVE w) (attr__prev_pad w)
    (attr_size_includes_decorations w).

Definition set_hists (v : gmap handle TH1) (w : World) : World :=
  mkWorld (pads w) v (gPad w) (next_handle w) (gROOT_batch w) (gStyle w)
    (decorations w) (KEEPALIVE w) (attr__prev_pad w)
    (attr_size_includes_decorations w).

Definition set_gPad (v : ref) (w : World) : World :=
  mkWorld (pads w) (hists w) v (next_handle w) (gROOT_batch w) (gStyle w)
    (decorations w) (KEEPALIVE w) (attr__prev_pad w)
    (attr_size_includes_decorations w).

Definition set_next_handle (v : handle) (w : World) : World :=
  mkWorld (pads w) (hists w) (gPad w) v (gROOT_batch w) (gStyle w)
    (decorations w) (KEEPALIVE w) (attr__prev_pad w)
    (attr_size_includes_decorations w).

Definition set_KEEPALIVE (v : gmap ref (gset ref)) (w : World) : World :=
  mkWorld (pads w) (hists w) (gPad w) (next_handle w) (gROOT_batch w)
    (gStyle w) (decorations w) v (attr__prev_pad w)
    (attr_size_includes_decorations w).

Definition set_attr__prev_pad (v : gmap handle ref) (w : World) : World :=
  mkWorld (pads w) (hists w) (gPad w) (next_handle w) (gROOT_batch w)
    (gStyle w) (decorations w) (KEEPALIVE w) v
    (attr_size_includes_decorations w).

Definition set_attr_size_includes_decorations
    (v : gmap handle bool) (w : World) : World :=
  mkWorld (pads w) (hists w) (gPad w) (next_handle w) (gROOT_batch w)
    (gStyle w) (decorations w) (KEEPALIVE w) (attr__prev_pad w) v.

Definition null_pointer {A} : M World A :=
  raise (ReferenceError "attempt to access a null-pointer").

(** The native object behind a proxy. *)
Definition the_pad (self : handle) : M World TPad :=
  fun w =>
    match pads w !! self with
    | Some p => (Return p, w)
    | None => null_pointer w
    end.

(** A method call through a reference. *)
Definition call {A} (r : ref) (method : handle -> M World A) : M World A :=
  match r with
  | Some h => method h
  | None => null_pointer
  end.

Definition update_pad (self : handle) (f : TPad -> TPad) : M World unit :=
  the_pad self ;;
  modify (fun w => set_pads (alter f self (pads w)) w).

Definition alloc : M World handle :=
  fun w => (Return (next_handle w), set_next_handle (Pos.succ (next_handle w)) w).

(** *** Getters *)

Definition GetWNDC (self : handle) : M World float :=
  p <- the_pad self ;; ret (fWNDC p).

Definition GetHNDC (self : handle) : M World float :=
  p <- the_pad self ;; ret (fHNDC p).

Definition GetMother (self : handle) : M World ref :=
  p <- the_pad self ;; ret (fMother p).

Definition GetCanvas (self : handle) : M World ref :=
  p <- the_pad self ;; ret (fCanvas p).

Definition GetWw (self : handle) : M World Z :=
  p <- the_pad self ;; ret (fCw p).

Definition GetWh (self : handle) : M World Z :=
  p <- the_pad self ;; ret (fCh p).

Definition IsBatch (self : handle) : M World bool :=
  p <- the_pad self ;; ret (fBatch p).

(** [ROOT.gPad.func()] *)
Definition gPad_func : M World ref := gets gPad.

(** *** Canvas windows *)

(** Modelled from the spec: the window of a canvas carries the window
    manager's decoration, and the paintable area is what is left of the
    window without it. A window of [ww] x [wh] pixels: *)
Definition with_window (ww wh : Z) (deco : Z * Z) (p : TPad) : TPad :=
  mkTPad (surface_class p) (fWNDC p) (fHNDC p) (fMother p) (fCanvas p)
    (fNumber p) (fPrimitives p) (fBatch p)
    (ww - fst deco) (wh - snd deco) ww wh (fWindowTopX p) (fWindowTopY p).

(** Modelled from the spec: the size of the canvas buffer, set directly. *)
Definition with_canvas_size (ww wh : Z) (p : TPad) : TPad :=
  mkTPad (surface_class p) (fWNDC p) (fHNDC p) (fMother p) (fCanvas p)
    (fNumber p) (fPrimitives p) (fBatch p)
    ww wh (fWindowWidth p) (fWindowHeight p) (fWindowTopX p) (fWindowTopY p).

(** Modelled from the spec: [TCanvas.__init__(name, title, x, y, ww, wh)]
    makes a new top-level surface, with no mother and with itself as its
    canvas; it becomes the current pad. The dimensions it is given include
    the window manager's decoration (the comment in [Canvas.__init__],
    canvas.py:200-204), with a window and in batch mode alike: the paintable
    area it leaves is smaller than [ww] x [wh] by the decoration, which is
    why [Canvas.__init__] has to adjust the size afterwards in both modes. *)
Definition new_canvas (w : World) (self : handle) (x y ww wh : Z) : TPad :=
  with_window ww wh (decorations w)
    (mkTPad Canvas_class 1%float 1%float None (Some self) 0 []
       (gROOT_batch w) ww wh ww wh x y).

Definition TCanvas___init__ (self : handle) (x y ww wh : Z) : M World unit :=
  fun w =>
    (Return tt,
     set_gPad (Some self)
       (set_pads (<[self := new_canvas w self x y ww wh]> (pads w)) w)).

(** [TCanvas::SetCanvasSize] *)
Definition SetCanvasSize (self : handle) (ww wh : Z) : M World unit :=
  update_pad self (with_canvas_size ww wh).

(** [TCanvas::SetWindowSize]: resizes the window; there is none in batch
    mode. *)
Definition SetWindowSize (self : handle) (ww wh : Z) : M World unit :=
  p <- the_pad self ;;
  if fBatch p then ret tt
  else
    deco <- gets decorations ;;
    update_pad self (with_window ww wh deco).

(** *** Current pad and drawing *)

Definition is_subpad (w : World) (n : Z) (h : handle) : bool :=
  match pads w !! h with
  | Some p => bool_decide (fNumber p = n)
  | None => false
  end.

(** Modelled from the spec: [TPad::cd(subpadnumber = 0)] makes the surface
    the current drawing target; with a sub-pad number it is the sub-pad of
    that number among the primitives that becomes current, and the answer
    is a null pointer when there is none. *)
Definition TPad_cd (self : handle) (args : list Z) : M World ref :=
  p <- the_pad self ;;
  match args with
  | [] | [0] => modify (set_gPad (Some self)) ;; ret (Some self)
  | [n] =>
      w <- gets id ;;
      match List.find (is_subpad w n) (fPrimitives p) with
      | Some sub => modify (set_gPad (Some sub)) ;; ret (Some sub)
      | None => ret None
      end
  | _ => raise (TypeError "cd() takes at most 1 argument")
  end.

Definition with_primitives (l : list handle) (p : TPad) : TPad :=
  mkTPad (surface_class p) (fWNDC p) (fHNDC p) (fMother p) (fCanvas p)
    (fNumber p) l (fBatch p)
    (fCw p) (fCh p) (fWindowWidth p) (fWindowHeight p)
    (fWindowTopX p) (fWindowTopY p).

Definition with_parent (mother canvas : ref) (p : TPad) : TPad :=
  mkTPad (surface_class p) (fWNDC p) (fHNDC p) mother canvas
    (fNumber p) (fPrimitives p) (fBatch p)
    (fCw p) (fCh p) (fWindowWidth p) (fWindowHeight p)
    (fWindowTopX p) (fWindowTopY p).

Definition remove_primitive (x : handle) (p : TPad) : TPad :=
  with_primitives (List.filter (fun y => negb (Pos.eqb x y)) (fPrimitives p)) p.

Definition add_primitive (x : handle) (p : TPad) : TPad :=
  with_primitives (fPrimitives p ++ [x]) p.

(** [gROOT->MakeDefCanvas()] *)
Definition MakeDefCanvas : M World unit :=
  c <- alloc ;;
  style <- gets gStyle ;;
  TCanvas___init__ c (CanvasDefX style) (CanvasDefY style)
    (CanvasDefW style) (CanvasDefH style).

(** Modelled from the spec: [TPad::Draw] draws the child surface onto its
    parent: the pad is attached to the current pad (a default canvas is
    made when there is none), which becomes its mother. *)
Definition TPad_Draw (self : handle) (args : list string) : M World unit :=
  the_pad self ;;
  cur <- gPad_func ;;
  (if truthy cur then ret tt else MakeDefCanvas) ;;
  cur <- gPad_func ;;
  if py_is cur (Some self) then ret tt
  else
    call cur (fun g =>
      gp <- the_pad g ;;
      p <- the_pad self ;;
      match fMother p with
      | Some m => modify (fun w => set_pads (alter (remove_primitive self) m (pads w)) w)
      | None => ret tt
      end ;;
      update_pad self (with_parent (Some g) (fCanvas gp)) ;;
      update_pad g (add_primitive self)).

End ROOT.
Export ROOT.

(** ** Parts of rootpy that [canvas.py] imports from other files *)

Module rootpy.

(** Modelled from the spec: [rootpy.memory.keepalive.keepalive] is missing;
    the registry is a process-wide map recording ownership edges, and
    [keepalive(owner, owned)] records the edge (owner, owned). *)
Definition add_edge (nurse patient : ref) (reg : gmap ref (gset ref))
  : gmap ref (gset ref) :=
  <[nurse := {[patient]} ∪ default ∅ (reg !! nurse)]> reg.

Definition keepalive (nurse patient : ref) : M World unit :=
  modify (fun w => set_KEEPALIVE (add_edge nurse patient (KEEPALIVE w)) w).

(** The edge (owner, owned) is in the registry. *)
Definition has_edge (reg : gmap ref (gset ref)) (nurse patient : ref) : Prop :=
  exists s : gset ref, reg !! nurse = Some s /\ patient ∈ s.

(** Modelled from the spec: [rootpy.context.invisible_canvas] is missing;
    entering and leaving its scope with an empty body creates and discards
    an invisible surface, which resets the global current-surface state to
    none. *)
Definition with_invisible_canvas_pass : M World unit :=
  modify (set_gPad None).

(** Modelled from the spec: [rootpy.plotting.hist] is missing; [Hist],
    [Hist2D] and [Hist3D] construct an invisible histogram skeleton of 1, 2
    or 3 dimensions from the bin counts and the axis ranges. *)
Definition Hist_new (dim : Z) (args : list num) : M World handle :=
  h <- alloc ;;
  modify (fun w => set_hists (<[h := mkTH1 dim args [] None None None]> (hists w)) w) ;;
  ret h.

Definition Hist (args : list num) : M World handle := Hist_new 1 args.

Definition Hist2D (args : list num) : M World handle := Hist_new 2 args.

Definition Hist3D (args : list num) : M World handle := Hist_new 3 args.

Definition with_drawn (option : string) (h : TH1) : TH1 :=
  mkTH1 (h_dim h) (h_args h) (h_drawn h ++ [option])
    (h_xlimits h) (h_ylimits h) (h_zlimits h).

(** [hist.Draw(option)]: the histogram is drawn with that option on the
    current pad (a default canvas is made when there is none). *)
Definition Hist_Draw (self : handle) (option : string) : M World unit :=
  cur <- gPad_func ;;
  (if truthy cur then ret tt else MakeDefCanvas) ;;
  cur <- gPad_func ;;
  match cur with
  | Some g => modify (fun w => set_pads (alter (add_primitive self) g (pads w)) w)
  | None => ret tt
  end ;;
  modify (fun w => set_hists (alter (with_drawn option) self (hists w)) w).

Definition with_limits (a : axis_id) (lim : num * num) (h : TH1) : TH1 :=
  match a with
  | AxisX => mkTH1 (h_dim h) (h_args h) (h_drawn h) (Some lim) (h_ylimits h) (h_zlimits h)
  | AxisY => mkTH1 (h_dim h) (h_args h) (h_drawn h) (h_xlimits h) (Some lim) (h_zlimits h)
  | AxisZ => mkTH1 (h_dim h) (h_args h) (h_drawn h) (h_xlimits h) (h_ylimits h) (Some lim)
  end.

(** [axis.limits = lim] *)
Definition set_limits (axis : handle * axis_id) (lim : num * num) : M World unit :=
  modify (fun w => set_hists (alter (with_limits (snd axis) lim) (fst axis) (hists w)) w).

(** Instance attributes set by the wrappers. *)
Definition setattr__prev_pad (self : handle) (v : ref) : M World unit :=
  modify (fun w => set_attr__prev_pad (<[self := v]> (attr__prev_pad w)) w).

(** The name Python prints for the class of an object. The class of a
    wrapper is kept with its surface; of a wrapper whose surface is not in
    the store only the base class that defines its methods is known. *)
Definition class_name (c : pyclass) : string :=
  match c with Pad_class => "Pad" | Canvas_class => "Canvas" end.

Definition type_name (self : handle) (w : World) : string :=
  match pads w !! self with
  | Some p => class_name (surface_class p)
  | None => "_PadBase"
  end.

(** What Python raises when it reads an attribute that was never set. *)
Definition no_attribute (cls attr : string) : exn :=
  AttributeError ("'" +:+ cls +:+ "' object has no attribute '" +:+ attr +:+ "'").

Definition getattr__prev_pad (self : handle) : M World ref :=
  fun w =>
    match attr__prev_pad w !! self with
    | Some v => (Return v, w)
    | None => (Raise (no_attribute (type_name self w) "_prev_pad"), w)
    end.

Definition setattr_size_includes_decorations (self : handle) (v : bool)
  : M World unit :=
  modify (fun w => set_attr_size_includes_decorations
                     (<[self := v]> (attr_size_includes_decorations w)) w).

(** [getattr(self, 'size_includes_decorations', dflt)] *)
Definition getattr_size_includes_decorations (self : handle) (dflt : bool)
  : M World bool :=
  gets (fun w => default dflt (attr_size_includes_decorations w !! self)).

(** The [with] statement: [__exit__] runs on every way out of the body; a
    falsy result lets the body's exception through. *)
Definition py_with {A} (enter : M World handle)
    (exit : option exn -> M World bool) (body : M World A)
  : M World (option A) :=
  fun w =>
    match enter w with
    | (Raise e, w1) => (Raise e, w1)
    | (Return _, w1) =>
        match body w1 with
        | (Return a, w2) =>
            match exit None w2 with
            | (Return _, w3) => (Return (Some a), w3)
            | (Raise e', w3) => (Raise e', w3)
            end
        | (Raise e, w2) =>
            match exit (Some e) w2 with
            | (Return true, w3) => (Return None, w3)
            | (Return false, w3) => (Raise e, w3)
            | (Raise e', w3) => (Raise e', w3)
            end
        end
    end.

End rootpy.
Export rootpy.

(** ** rootpy/plotting/canvas.py *)

(** A loop that may run forever: [None] when the fuel runs out before the
    condition turns false. *)
Fixpoint while {St} (fuel : nat) (cond : St -> bool)
    (body : St -> M World St) (st : St) (w : World)
  : option (outcome St * World) :=
  match fuel with
  | O => None
  | S fuel' =>
      if cond st then
        match body st w with
        | (Return st', w') => while fuel' cond body st' w'
        | (Raise e, w') => Some (Raise e, w')
        end
      else Some (Return st, w)
  end.

(** [m], then the loop [l] on its result, then [k] on the loop's. *)
Definition around_loop {A B C} (m : M World A)
    (l : A -> World -> option (outcome B * World)) (k : B -> M World C)
  : World -> option (outcome C * World) :=
  fun w =>
    match m w with
    | (Raise e, w1) => Some (Raise e, w1)
    | (Return a, w1) =>
        match l a w1 with
        | None => None
        | Some (Raise e, w2) => Some (Raise e, w2)
        | Some (Return b, w2) => Some (k b w2)
        end
    end.

Module _PadBase.

(** [def cd(self, *args)] *)
Definition cd {C : Conversion} (self : handle) (args : list Z) : M World ref :=
  r <- TPad_cd self args ;;
  let pad := asrootpy r in
  (if truthy pad && negb (py_is pad (Some self))
   then keepalive (Some self) pad
   else ret tt) ;;
  ret pad.

(** [def axes(self, ndim=1, xlimits=None, ylimits=None, zlimits=None,
    xbins=1, ybins=1, zbins=1)]; the tuple it returns is a list. *)
Definition axes (self : handle) (ndim : Z)
    (xlimits ylimits zlimits : option (num * num)) (xbins ybins zbins : num)
  : M World (list (handle * axis_id)) :=
  hist <-
    (if ndim =? 1 then
       match xlimits with
       | Some xl => Hist [xbins; fst xl; snd xl]
       | None => Hist [xbins; PyInt 0; PyInt 1]
       end
     else if ndim =? 2 then
       let args := [xbins; PyInt 0; PyInt 1; ybins; PyInt 0; PyInt 1] in
       let args := match xlimits with
                   | Some xl => <[2%nat := snd xl]> (<[1%nat := fst xl]> args)
                   | None => args
                   end in
       let args := match ylimits with
                   | Some yl => <[5%nat := snd yl]> (<[4%nat := fst yl]> args)
                   | None => args
                   end in
       Hist2D args
     else if ndim =? 3 then
       let args := [xbins; PyInt 0; PyInt 1; ybins; PyInt 0; PyInt 1;
                    zbins; PyInt 0; PyInt 1] in
       let args := match xlimits with
                   | Some xl => <[2%nat := snd xl]> (<[1%nat := fst xl]> args)
                   | None => args
                   end in
       let args := match ylimits with
                   | Some yl => <[5%nat := snd yl]> (<[4%nat := fst yl]> args)
                   | None => args
                   end in
       let args := match zlimits with
                   | Some zl => <[8%nat := snd zl]> (<[7%nat := fst zl]> args)
                   | None => args
                   end in
       Hist3D args
     else raise (ValueError "ndim must be 1, 2, or 3")) ;;
  Hist_Draw hist "AXIS" ;;
  let xaxis := (hist, AxisX) in
  let yaxis := (hist, AxisY) in
  let zaxis := (hist, AxisZ) in
  match xlimits with Some xl => set_limits xaxis xl | None => ret tt end ;;
  match ylimits with Some yl => set_limits yaxis yl | None => ret tt end ;;
  (if 1 <? ndim
   then match zlimits with Some zl => set_limits zaxis zl | None => ret tt end
   else ret tt) ;;
  if 1 <? ndim then ret [xaxis; yaxis; zaxis] else ret [xaxis; yaxis].

(** [canvas] property *)
Definition canvas {C : Conversion} (self : handle) : M World ref :=
  r <- GetCanvas self ;; ret (asrootpy r).

(** [mother] property *)
Definition mother {C : Conversion} (self : handle) : M World ref :=
  r <- GetMother self ;; ret (asrootpy r).

(** [def __enter__(self)] *)
Definition __enter__ {C : Conversion} (self : handle) : M World handle :=
  prev <- gPad_func ;;
  setattr__prev_pad self prev ;;
  cd self [] ;;
  ret self.

(** [def __exit__(self, type, value, traceback)] *)
Definition __exit__ {C : Conversion} (self : handle) (exc : option exn)
  : M World bool :=
  prev <- getattr__prev_pad self ;;
  (if truthy prev then
     call prev (fun p => cd p []) ;; ret tt
   else
     cur <- gPad_func ;;
     if truthy cur then with_invisible_canvas_pass else ret tt) ;;
  setattr__prev_pad self None ;;
  ret false.

(** [with self: body] *)
Definition with_ {C : Conversion} {A} (self : handle) (body : M World A)
  : M World (option A) :=
  py_with (__enter__ self) (__exit__ self) body.

End _PadBase.

(** [Canvas] comes before [Pad] here: [Pad.width_pixels] reads the [width]
    of whatever surface its walk ends on. *)
Module Canvas.

(** [def __init__(self, width=None, height=None, x=None, y=None, name=None,
    title=None, size_includes_decorations=False)] *)
Definition __init__ (self : handle) (width height x y : option Z)
    (size_includes_decorations : bool) : M World unit :=
  style <- gets gStyle ;;
  let width := match width with Some v => v | None => CanvasDefW style end in
  let height := match height with Some v => v | None => CanvasDefH style end in
  let x := match x with Some v => v | None => CanvasDefX style end in
  let y := match y with Some v => v | None => CanvasDefY style end in
  TCanvas___init__ self x y width height ;;
  (if negb size_includes_decorations then
     batch <- IsBatch self ;;
     if batch then SetCanvasSize self width height
     else
       ww <- GetWw self ;;
       wh <- GetWh self ;;
       SetWindowSize self (width + (width - ww)) (height + (height - wh))
   else ret tt) ;;
  setattr_size_includes_decorations self size_includes_decorations.

(** [width] property *)
Definition width (self : handle) : M World Z := GetWw self.

(** [width] setter *)
Definition set_width (self : handle) (value : Z) : M World unit :=
  batch <- IsBatch self ;;
  if batch then
    wh <- GetWh self ;;
    SetCanvasSize self value wh
  else
    curr_height <- GetWh self ;;
    SetWindowSize self value curr_height ;;
    sid <- getattr_size_includes_decorations self false ;;
    if negb sid then
      ww <- GetWw self ;;
      wh <- GetWh self ;;
      SetWindowSize self (value + (value - ww))
        (curr_height + (curr_height - wh))
    else ret tt.

(** [width_pixels] property *)
Definition width_pixels (self : handle) : M World Z := GetWw self.

(** [width_pixels] setter *)
Definition set_width_pixels (self : handle) (value : Z) : M World unit :=
  set_width self value.

(** [height] property *)
Definition height (self : handle) : M World Z := GetWh self.

(** [height] setter *)
Definition set_height (self : handle) (value : Z) : M World unit :=
  batch <- IsBatch self ;;
  if batch then
    ww <- GetWw self ;;
    SetCanvasSize self ww value
  else
    curr_width <- GetWw self ;;
    SetWindowSize self curr_width value ;;
    sid <- getattr_size_includes_decorations self false ;;
    if negb sid then
      ww <- GetWw self ;;
      wh <- GetWh self ;;
      SetWindowSize self (curr_width + (curr_width - ww))
        (value + (value - wh))
    else ret tt.

(** [height_pixels] property *)
Definition height_pixels (self : handle) : M World Z := GetWh self.

(** [height_pixels] setter *)
Definition set_height_pixels (self : handle) (value : Z) : M World unit :=
  set_height self value.

End Canvas.

Module Pad.

(** [def Draw(self, *args)] *)
Definition Draw (self : handle) (args : list string) : M World unit :=
  ret_ <- TPad_Draw self args ;;
  canvas <- GetCanvas self ;;
  keepalive canvas (Some self) ;;
  ret ret_.

(** [width] property *)
Definition width (self : handle) : M World float := GetWNDC self.

(** [height] property *)
Definition height (self : handle) : M World float := GetHNDC self.

(** [surface.width] and [surface.height], by the class of the surface. *)
Definition getattr_width (self : handle) : M World num :=
  p <- the_pad self ;;
  match surface_class p with
  | Canvas_class => v <- Canvas.width self ;; ret (PyInt v)
  | Pad_class => v <- width self ;; ret (PyFloat v)
  end.

Definition getattr_height (self : handle) : M World num :=
  p <- the_pad self ;;
  match surface_class p with
  | Canvas_class => v <- Canvas.height self ;; ret (PyInt v)
  | Pad_class => v <- height self ;; ret (PyFloat v)
  end.

(** [int(a * b)] *)
Definition int_of_product (a : float) (b : num) : M World Z :=
  fun w =>
    match py_mul (PyFloat a) b with
    | Return v => (py_int v, w)
    | Raise e => (Raise e, w)
    end.

(** The loop of [width_pixels]:
    [while mother is not canvas: w *= mother.GetWNDC(); mother = mother.mother] *)
Definition width_pixels_while {C : Conversion} (fuel : nat) (canvas : ref)
  : ref * float -> World -> option (outcome (ref * float) * World) :=
  while fuel
    (fun '(mother, _) => negb (py_is mother canvas))
    (fun '(mother, w) =>
       wm <- call mother GetWNDC ;;
       mother' <- call mother _PadBase.mother ;;
       ret (mother', (w * wm)%float)).

(** [width_pixels] property *)
Definition width_pixels {C : Conversion} (fuel : nat) (self : handle)
  : World -> option (outcome Z * World) :=
  around_loop
    (mother <- _PadBase.mother self ;;
     canvas <- _PadBase.canvas self ;;
     w <- GetWNDC self ;;
     ret (canvas, (mother, w)))
    (fun '(canvas, st) => width_pixels_while fuel canvas st)
    (fun '(mother, w) =>
       mw <- call mother getattr_width ;;
       int_of_product w mw).

(** The loop of [height_pixels]:
    [while mother is not canvas: h *= mother.GetHNDC(); mother = mother.mother] *)
Definition height_pixels_while {C : Conversion} (fuel : nat) (canvas : ref)
  : ref * float -> World -> option (outcome (ref * float) * World) :=
  while fuel
    (fun '(mother, _) => negb (py_is mother canvas))
    (fun '(mother, h) =>
       hm <- call mother GetHNDC ;;
       mother' <- call mother _PadBase.mother ;;
       ret (mother', (h * hm)%float)).

(** [height_pixels] property *)
Definition height_pixels {C : Conversion} (fuel : nat) (self : handle)
  : World -> option (outcome Z * World) :=
  around_loop
    (mother <- _PadBase.mother self ;;
     canvas <- _PadBase.canvas self ;;
     h <- GetHNDC self ;;
     ret (canvas, (mother, h)))
    (fun '(canvas, st) => height_pixels_while fuel canvas st)
    (fun '(mother, h) =>
       mh <- call mother getattr_height ;;
       int_of_product h mh).

End Pad.

(** ** The mother chain of a pad *)

Module Chain.

(** [ms] lists, from the bottom up, the surfaces met on the way from [cur]
    to [canvas] through the [mother] property: [cur] is the first of them,
    the mother of each is the next, the mother of the last is [canvas], and
    none of them is [canvas]. With no surface to meet, [cur] is [canvas]. *)
Fixpoint is_chain {C : Conversion} (w : World) (canvas cur : ref)
    (ms : list handle) : bool :=
  match ms with
  | [] => py_is cur canvas
  | m :: ms' =>
      negb (py_is cur canvas) && py_is cur (Some m) &&
      match pads w !! m with
      | Some p => is_chain w canvas (asrootpy (fMother p)) ms'
      | None => false
      end
  end.

(** The value of one field on each surface of a list. *)
Fixpoint along {A} (f : TPad -> A) (w : World) (ms : list handle) : list A :=
  match ms with
  | [] => []
  | m :: ms' =>
      match pads w !! m with
      | Some p => f p :: along f w ms'
      | None => along f w ms'
      end
  end.

(** The shape the loops of [width_pixels] and [height_pixels] share, over
    the field [dim] they multiply. *)
Definition walk_cond (canvas : ref) : ref * float -> bool :=
  fun '(mother, _) => negb (py_is mother canvas).

Definition walk_body {C : Conversion} (dim : TPad -> float)
  : ref * float -> M World (ref * float) :=
  fun '(mother, x) =>
    xm <- call mother (fun h => p <- the_pad h ;; ret (dim p)) ;;
    mother' <- call mother _PadBase.mother ;;
    ret (mother', (x * xm)%float).

End Chain.
Export Chain.

(** ** A concrete toolkit to run the file wrapper on

    A disk of containers (path to named objects) and the containers that
    are open; conversion happens in place, so a converted object keeps its
    reference. *)

Module Sim.

Record Disk := mkDisk {
  on_disk : gmap string (gmap string handle);
  opened : gmap handle string;
  next_file : handle
}.

Definition sim_Open (path mode : string) (d : Disk) : ref * Disk :=
  match on_disk d !! path with
  | Some _ =>
      (Some (next_file d),
       mkDisk (on_disk d) (<[next_file d := path]> (opened d))
         (Pos.succ (next_file d)))
  | None => (None, d)
  end.

Definition sim_Get (self : handle) (name : string) (d : Disk) : ref * Disk :=
  (path ← opened d !! self; objs ← on_disk d !! path; objs !! name, d).

Definition sim___init__ (self : handle) (args : list pyval) : M Disk unit :=
  match args with
  | PyStr path :: _ =>
      modify (fun d => mkDisk (on_disk d) (<[self := path]> (opened d)) (next_file d))
  | _ => raise (TypeError "none of the overloaded constructors matched")
  end.

#[export] Instance sim_TFile : TFile_native Disk :=
  {| TFile_Open := sim_Open; TFile_Get := sim_Get; TFile___init__ := sim___init__ |}.

#[export] Instance in_place : Conversion := {| asrootpy := fun r => r |}.

(** One container, [data.root], holding one histogram (object 7); it is
    open as object 1. *)
Definition disk0 : Disk :=
  mkDisk {[ "data.root" := {[ "hpx" := 7%positive ]} ]}
         {[ 1%positive := "data.root" ]} 2%positive.

End Sim.

(** ** Concrete stores to run the surface wrappers on *)

Module Scene.

(** No surface yet; the style's defaults are 700 x 500 at (10, 10) and the
    window manager adds 4 x 28 pixels of decoration. *)
Definition fresh (batch : bool) : World :=
  mkWorld ∅ ∅ None 1%positive batch (mkTStyle 700 500 10 10) (4, 28) ∅ ∅ ∅.

Definition a_canvas (self : handle) (cw ch : Z) : TPad :=
  mkTPad Canvas_class 1%float 1%float (Some self) (Some self) 0 []
    false cw ch (cw + 4) (ch + 28) 10 10.

Definition a_pad (mother canvas : handle) (number : Z) (wndc hndc : float)
  : TPad :=
  mkTPad Pad_class wndc hndc (Some mother) (Some canvas) number []
    false 0 0 0 0 0 0.

(** Canvas 1 of 800 x 600 pixels holds pad 2 (half its width, three
    quarters of its height), which holds pad 3 (a quarter of the width of
    pad 2, half its height). Canvas 1 is the current pad. *)
Definition nested : World :=
  mkWorld
    {[ 1%positive := add_primitive 2 (a_canvas 1 800 600);
       2%positive := add_primitive 3 (a_pad 1 1 1 0.5%float 0.75%float);
       3%positive := a_pad 2 1 1 0.25%float 0.5%float ]}
    ∅ (Some 1%positive) 4%positive false (mkTStyle 700 500 10 10) (4, 28)
    ∅ ∅ ∅.

(** Two canvases, 1 and 2; canvas 1 is the current pad. *)
Definition two_canvases : World :=
  mkWorld
    {[ 1%positive := a_canvas 1 800 600; 2%positive := a_canvas 2 400 300 ]}
    ∅ (Some 1%positive) 3%positive false (mkTStyle 700 500 10 10) (4, 28)
    ∅ ∅ ∅.

End Scene.

(** ** What a computation leaves in place

    [preserves R m]: whatever [m] does, on every way out the store it leaves
    is related by [R] to the store it started from. *)

Definition preserves {A} (R : relation World) (m : M World A) : Prop :=
  forall w, R w (snd (m w)).

(** The registry is left as it was. *)
Definition same_registry : relation World :=
  fun w w' => KEEPALIVE w' = KEEPALIVE w.

(** No surface goes away. *)
Definition pads_stay : relation World :=
  fun w w' => forall h, is_Some (pads w !! h) -> is_Some (pads w' !! h).

(** One step of the store that [R] always admits: a field [R] does not
    look at, or an update [R] tolerates. *)
Class Tolerates (R : relation World) : Prop := {
  tolerates_pre :: PreOrder R;
  tolerates_alter : forall w f h, R w (set_pads (alter f h (pads w)) w);
  tolerates_insert : forall w c h, R w (set_pads (<[h := c]> (pads w)) w);
  tolerates_hists : forall w v, R w (set_hists v w);
  tolerates_gPad : forall w v, R w (set_gPad v w);
  tolerates_next : forall w v, R w (set_next_handle v w);
  tolerates_prev : forall w v, R w (set_attr__prev_pad v w);
  tolerates_sid : forall w v, R w (set_attr_size_includes_decorations v w)
}.

(** The body of a [with] block on [self] that finds [prev] recorded leaves
    that record, and the pad it names, in place. *)
Definition keeps_scope {A} (self : handle) (prev : ref) (body : M World A)
  : Prop :=
  forall w,
    attr__prev_pad w !! self = Some prev ->
    (forall p, prev = Some p -> is_Some (pads w !! p)) ->
    attr__prev_pad (snd (body w)) !! self = Some prev
    /\ (forall p, prev = Some p -> is_Some (pads (snd (body w)) !! p)).

(** ** A canvas after its size was assigned

    The surface a canvas is after an assignment that asks for [ww] x [wh]:
    in batch mode the buffer has that size; with a window that counts its
    decoration in ([sid]) the window has it; otherwise the window has that
    size and the decoration on top. *)
Definition resized (ww wh : Z) (sid : bool) (deco : Z * Z) (c : TPad) : TPad :=
  if fBatch c then with_canvas_size ww wh c
  else if sid then with_window ww wh deco c
  else with_window (ww + fst deco) (wh + snd deco) deco c.

(** ** Reading without writing *)

(** A computation that leaves the store as it found it, on every way out. *)
Definition readonly {A} (m : M World A) : Prop := forall w, snd (m w) = w.

(** ** Mother chains that miss the canvas *)

(** [ms] lists, from the bottom up, the surfaces met on the way from [cur]
    to [last] through the [mother] property, none of them [canvas]: the
    walk towards [canvas] passes them all and then stands on [last]. *)
Fixpoint leads_to {C : Conversion} (w : World) (canvas cur : ref)
    (ms : list handle) (last : ref) : bool :=
  match ms with
  | [] => py_is cur last
  | m :: ms' =>
      negb (py_is cur canvas) && py_is cur (Some m) &&
      match pads w !! m with
      | Some p => leads_to w canvas (asrootpy (fMother p)) ms' last
      | None => false
      end
  end.

(** A reference with nothing behind it: null, or an object that is gone. *)
Definition gone (w : World) (r : ref) : bool :=
  match r with
  | None => true
  | Some m => match pads w !! m with Some _ => false | None => true end
  end.

Module Strays.

(** Canvas 1 holds nothing; pad 2 names canvas 1 as its canvas and has no
    mother; pad 3 sits in pad 2. *)
Definition orphaned : World :=
  mkWorld
    {[ 1%positive := Scene.a_canvas 1 800 600;
       2%positive := with_parent None (Some 1%positive)
                       (Scene.a_pad 1 1 1 0.5%float 0.75%float);
       3%positive := Scene.a_pad 2 1 1 0.25%float 0.5%float ]}
    ∅ (Some 1%positive) 4%positive false (mkTStyle 700 500 10 10) (4, 28)
    ∅ ∅ ∅.

(** Two canvases; pad 3 sits in canvas 2 and names canvas 1 as its
    canvas. *)
Definition foreign : World :=
  mkWorld
    {[ 1%positive := Scene.a_canvas 1 800 600;
       2%positive := Scene.a_canvas 2 400 300;
       3%positive := Scene.a_pad 2 1 1 0.25%float 0.5%float ]}
    ∅ (Some 1%positive) 4%positive false (mkTStyle 700 500 10 10) (4, 28)
    ∅ ∅ ∅.

End Strays.

(** ** The histogram behind the axes *)

(** The range an axis is built with: the limits given, 0 to 1 otherwise. *)
Definition range_of (limits : option (num * num)) : list num :=
  match limits with
  | Some l => [fst l; snd l]
  | None => [PyInt 0; PyInt 1]
  end.

(** The skeleton asked for: bins and range of each of its [ndim] axes, the
    one option [AXIS] it is drawn with, and the limits set on its axes. *)
Definition skeleton (ndim : Z) (xlimits ylimits zlimits : option (num * num))
    (xbins ybins zbins : num) : TH1 :=
  mkTH1 ndim
    (if ndim =? 1 then xbins :: range_of xlimits
     else if ndim =? 2 then
       (xbins :: range_of xlimits) ++ (ybins :: range_of ylimits)
     else (xbins :: range_of xlimits) ++ (ybins :: range_of ylimits)
            ++ (zbins :: range_of zlimits))
    ["AXIS"] xlimits ylimits (if 1 <? ndim then zlimits else None).

(** ** Edges that stay *)

(** Every edge of the registry before is an edge of the registry after. *)
Definition registry_grows : relation World :=
  fun w w' =>
    forall nurse patient,
      has_edge (KEEPALIVE w) nurse patient -> has_edge (KEEPALIVE w') nurse patient.

(** ** What drawing leaves of a surface *)

(** Two states of a surface with the same class, the same normalized size
    and the same size in pixels. *)
Definition alike (a b : TPad) : Prop :=
  surface_class a = surface_class b
  /\ fWNDC a = fWNDC b /\ fHNDC a = fHNDC b
  /\ fCw a = fCw b /\ fCh a = fCh b.

(** * Properties *)

(** ** Runs on concrete stores *)

Example open_missing_path :
  io.open (N := Sim.sim_TFile) "nope.root" "" Sim.disk0
  = (Raise (IOError "No such file: 'nope.root'"), Sim.disk0).
Proof. reflexivity. Qed.

Example open_existing_path :
  fst (io.open (N := Sim.sim_TFile) "data.root" "" Sim.disk0)
  = Return (Some 2%positive).
Proof. vm_compute. reflexivity. Qed.

Example Get_present_name :
  io.File.Get (N := Sim.sim_TFile) (C := Sim.in_place) 1%positive "hpx" Sim.disk0
  = (Return (Some 7%positive), Sim.disk0).
Proof. vm_compute. reflexivity. Qed.

Example File_init_mode_by_keyword :
  io.File.__init__ (N := Sim.sim_TFile) 3%positive [PyStr "data.root"]
    [("mode", PyStr "RECREATE")] Sim.disk0
  = io.File.__init__ (N := Sim.sim_TFile) 3%positive [PyStr "data.root"] []
      Sim.disk0.
Proof. reflexivity. Qed.

Example axes_ndim_2 :
  fst (_PadBase.axes 1%positive 2 (Some (PyInt 0, PyInt 10)) None None
         (PyInt 5) (PyInt 1) (PyInt 1) Scene.nested)
  = Return [(4%positive, AxisX); (4%positive, AxisY); (4%positive, AxisZ)].
Proof. vm_compute. reflexivity. Qed.

Example axes_ndim_2_histogram :
  hists (snd (_PadBase.axes 1%positive 2 (Some (PyInt 0, PyInt 10)) None None
                (PyInt 5) (PyInt 1) (PyInt 1) Scene.nested)) !! 4%positive
  = Some (mkTH1 2 [PyInt 5; PyInt 0; PyInt 10; PyInt 1; PyInt 0; PyInt 1]
            ["AXIS"] (Some (PyInt 0, PyInt 10)) None None).
Proof. vm_compute. reflexivity. Qed.

Example axes_ndim_4 :
  _PadBase.axes 1%positive 4 None None None (PyInt 1) (PyInt 1) (PyInt 1)
    Scene.nested
  = (Raise (ValueError "ndim must be 1, 2, or 3"), Scene.nested).
Proof. reflexivity. Qed.

Example canvas_500_batch :
  fst (Canvas.width_pixels 1%positive
         (snd (Canvas.__init__ 1%positive (Some 500) None None None false
                 (Scene.fresh true))))
  = Return 500.
Proof. vm_compute. reflexivity. Qed.

Example canvas_500_window :
  fst (Canvas.width_pixels 1%positive
         (snd (Canvas.__init__ 1%positive (Some 500) None None None false
                 (Scene.fresh false))))
  = Return 500.
Proof. vm_compute. reflexivity. Qed.

Example canvas_500_batch_with_decorations :
  fst (Canvas.width_pixels 1%positive
         (snd (Canvas.__init__ 1%positive (Some 500) None None None true
                 (Scene.fresh true))))
  = Return 496.
Proof. vm_compute. reflexivity. Qed.

Example cd_sub_pad_registers :
  fst (_PadBase.cd (C := Sim.in_place) 1%positive [1] Scene.nested)
  = Return (Some 2%positive)
  /\ KEEPALIVE (snd (_PadBase.cd (C := Sim.in_place) 1%positive [1] Scene.nested))
     = add_edge (Some 1%positive) (Some 2%positive) ∅.
Proof. split; vm_compute; reflexivity. Qed.

Example float_trunc_negative : float_trunc (-2.75)%float = Return (-2).
Proof. vm_compute. reflexivity. Qed.

(** ** The effect monad *)

Lemma bind_Return {S A B} (m : M S A) (k : A -> M S B) s a s' :
  m s = (Return a, s') -> bind m k s = k a s'.
Proof. intros E. unfold bind. now rewrite E. Qed.

Lemma bind_Raise {S A B} (m : M S A) (k : A -> M S B) s e s' :
  m s = (Raise e, s') -> bind m k s = (Raise e, s').
Proof. intros E. unfold bind. now rewrite E. Qed.

Lemma bind_assoc {S A B D} (m : M S A) (k : A -> M S B) (k' : B -> M S D) s :
  bind (bind m k) k' s = bind m (fun a => bind (k a) k') s.
Proof. unfold bind. now destruct (m s) as [[a|e] s']. Qed.

Lemma contains_infix (pre s post : string) : contains (pre +:+ s +:+ post) s.
Proof. now exists pre, post. Qed.

(** ** The file wrapper *)

Section io_properties.

Context {FS : Type} {N : TFile_native FS} {C : Conversion}.

(** C3: [open] raises if and only if the native open answers with a null
    handle; what it raises is the not-found [IOError] whose message contains
    the requested path; the native open is called once, on the very path and
    mode that were given, and the handle it answers with is returned. *)
Theorem open_not_found_iff_null (filename mode : string) (s : FS) :
  snd (io.open filename mode s) = snd (TFile_Open filename mode s)
  /\ ((exists e, fst (io.open filename mode s) = Raise e)
      <-> fst (TFile_Open filename mode s) = None)
  /\ (forall e, fst (io.open filename mode s) = Raise e ->
        e = IOError ("No such file: '" +:+ filename +:+ "'")
        /\ exists msg, e = IOError msg /\ contains msg filename)
  /\ (forall h, fst (TFile_Open filename mode s) = Some h ->
        fst (io.open filename mode s) = Return (Some h)).
Proof.
  unfold io.open, bind, native.
  destruct (TFile_Open filename mode s) as [[h|] s'] eqn:E; cbn.
  - split; [reflexivity|]. split; [|split].
    + split; [intros [e He]; discriminate | discriminate].
    + intros e He. discriminate.
    + intros h' [= ->]. reflexivity.
  - split; [reflexivity|]. split; [|split].
    + split; [reflexivity|]. intros _.
      exists (IOError ("No such file: '" +:+ filename +:+ "'")). reflexivity.
    + intros e [= <-]. split; [reflexivity|].
      eexists. split; [reflexivity|]. apply contains_infix.
    + intros h'. discriminate.
Qed.

(** C4, as the code has it: [Get] calls the native fetch once, on the name
    it was given, and returns the conversion helper applied to whatever the
    fetch answered; it raises nothing of its own, also when the fetch
    answers with a null handle. *)
Theorem Get_converts_native_result (self : handle) (name : string) (s : FS) :
  io.File.Get self name s
  = (Return (asrootpy (fst (TFile_Get self name s))),
     snd (TFile_Get self name s)).
Proof.
  unfold io.File.Get, bind, native, ret.
  now destruct (TFile_Get self name s).
Qed.

(** C10: the constructor forwards its positional arguments to the native
    constructor and nothing else; the keyword arguments have no effect. *)
Theorem File_init_drops_kwargs
    (self : handle) (args : list pyval) (kwargs : list (string * pyval)) (s : FS) :
  io.File.__init__ self args kwargs s = TFile___init__ self args s
  /\ forall kwargs' : list (string * pyval),
       io.File.__init__ self args kwargs' s = io.File.__init__ self args kwargs s.
Proof. split; reflexivity. Qed.

End io_properties.

(** C4 as stated fails: fetching a name that is absent from the container
    raises nothing; [Get] hands back the null handle. *)
Lemma Get_absent_does_not_fail :
  Sim.sim_Get 1%positive "missing" Sim.disk0 = (None, Sim.disk0)
  /\ io.File.Get (N := Sim.sim_TFile) (C := Sim.in_place)
       1%positive "missing" Sim.disk0
     = (Return None, Sim.disk0)
  /\ is_raise (fst (io.File.Get (N := Sim.sim_TFile) (C := Sim.in_place)
                      1%positive "missing" Sim.disk0)) = false.
Proof. vm_compute. repeat split. Qed.

(** ** Axes on a pad *)

Lemma Hist_new_runs dim args w :
  Hist_new dim args w
  = (Return (next_handle w),
     set_hists (<[next_handle w := mkTH1 dim args [] None None None]> (hists w))
       (set_next_handle (Pos.succ (next_handle w)) w)).
Proof. reflexivity. Qed.

Lemma Hist_Draw_returns self option w :
  exists w', Hist_Draw self option w = (Return tt, w').
Proof.
  unfold Hist_Draw, bind, gPad_func, gets.
  destruct (gPad w) as [g|] eqn:E; cbn; rewrite ?E; eexists; reflexivity.
Qed.

Lemma set_limits_returns axis lim w :
  exists w', set_limits axis lim w = (Return tt, w').
Proof. eexists. reflexivity. Qed.

Lemma set_limits_if_given_returns axis (lim : option (num * num)) w :
  exists w',
    match lim with Some l => set_limits axis l | None => ret tt end w
    = (Return tt, w').
Proof. destruct lim; eexists; reflexivity. Qed.

(** What [axes] does once the histogram skeleton exists. *)
Lemma axes_after_hist (hist : handle) (ndim : Z)
    (xlimits ylimits zlimits : option (num * num)) w :
  exists w',
    (Hist_Draw hist "AXIS" ;;
     match xlimits with Some xl => set_limits (hist, AxisX) xl | None => ret tt end ;;
     match ylimits with Some yl => set_limits (hist, AxisY) yl | None => ret tt end ;;
     (if 1 <? ndim
      then match zlimits with
           | Some zl => set_limits (hist, AxisZ) zl
           | None => ret tt
           end
      else ret tt) ;;
     if 1 <? ndim
     then ret [(hist, AxisX); (hist, AxisY); (hist, AxisZ)]
     else ret [(hist, AxisX); (hist, AxisY)]) w
    = (Return (if 1 <? ndim
               then [(hist, AxisX); (hist, AxisY); (hist, AxisZ)]
               else [(hist, AxisX); (hist, AxisY)]), w').
Proof.
  destruct (Hist_Draw_returns hist "AXIS" w) as [w1 E1].
  rewrite (bind_Return _ _ _ _ _ E1).
  destruct (set_limits_if_given_returns (hist, AxisX) xlimits w1) as [w2 E2].
  rewrite (bind_Return _ _ _ _ _ E2).
  destruct (set_limits_if_given_returns (hist, AxisY) ylimits w2) as [w3 E3].
  rewrite (bind_Return _ _ _ _ _ E3).
  destruct (1 <? ndim).
  - destruct (set_limits_if_given_returns (hist, AxisZ) zlimits w3) as [w4 E4].
    rewrite (bind_Return _ _ _ _ _ E4). eexists. reflexivity.
  - eexists. reflexivity.
Qed.

Ltac finish_axes ndim xl yl zl :=
  match goal with
  | |- context [bind (Hist_Draw ?h _) _ ?w1] =>
      let w' := fresh "w'" in
      let E := fresh "E" in
      destruct (axes_after_hist h ndim xl yl zl w1) as [w' E];
      exists w'; exact E
  end.

(** C2: with [ndim = 1] the result is the x and y axis of the skeleton, two
    objects; with [ndim = 2] or [ndim = 3] its x, y and z axis, three
    objects; with any other [ndim] a [ValueError] is raised and the store
    is the one [axes] started from: nothing was built or drawn and no axis
    is returned. *)
Theorem axes_two_three_or_ValueError (self : handle) (ndim : Z)
    (xlimits ylimits zlimits : option (num * num)) (xbins ybins zbins : num)
    (w : World) :
  (ndim = 1 ->
     exists w', _PadBase.axes self ndim xlimits ylimits zlimits xbins ybins zbins w
       = (Return [(next_handle w, AxisX); (next_handle w, AxisY)], w'))
  /\ (ndim = 2 \/ ndim = 3 ->
     exists w', _PadBase.axes self ndim xlimits ylimits zlimits xbins ybins zbins w
       = (Return [(next_handle w, AxisX); (next_handle w, AxisY);
                  (next_handle w, AxisZ)], w'))
  /\ (ndim <> 1 -> ndim <> 2 -> ndim <> 3 ->
     _PadBase.axes self ndim xlimits ylimits zlimits xbins ybins zbins w
       = (Raise (ValueError "ndim must be 1, 2, or 3"), w)).
Proof.
  unfold _PadBase.axes. split; [|split].
  - intros ->. cbn [Z.eqb Pos.eqb].
    destruct xlimits as [xl|];
      (erewrite bind_Return by apply Hist_new_runs).
    + finish_axes 1 (Some xl) ylimits zlimits.
    + finish_axes 1 (@None (num * num)) ylimits zlimits.
  - intros [-> | ->]; cbn [Z.eqb Pos.eqb];
      (erewrite bind_Return by apply Hist_new_runs).
    + finish_axes 2 xlimits ylimits zlimits.
    + finish_axes 3 xlimits ylimits zlimits.
  - intros H1 H2 H3.
    apply Z.eqb_neq in H1, H2, H3. rewrite H1, H2, H3. reflexivity.
Qed.

(** ** Relations every step of the toolkit admits *)

#[export] Instance same_registry_tolerates : Tolerates same_registry.
Proof.
  split; try (intros; reflexivity).
  split; [intros w; reflexivity | intros a b c Hab Hbc].
  unfold same_registry in *. congruence.
Qed.

#[export] Instance pads_stay_tolerates : Tolerates pads_stay.
Proof.
  split; try (intros w v h; exact id).
  - split; [intros w h; exact id | intros a b c Hab Hbc h Hh; auto].
  - intros w f h h' Hh. cbn.
    destruct (decide (h = h')) as [->|Hne].
    + rewrite lookup_alter_eq. destruct Hh as [p Hp]. rewrite Hp. eauto.
    + now rewrite lookup_alter_ne.
  - intros w c h h' Hh. cbn.
    destruct (decide (h = h')) as [->|Hne].
    + rewrite lookup_insert_eq. eauto.
    + now rewrite lookup_insert_ne.
Qed.

Section preserved.

Context (R : relation World) {T : Tolerates R}.

Lemma preserves_ret {A} (a : A) : preserves R (ret a).
Proof. intros w. reflexivity. Qed.

Lemma preserves_raise {A} (e : exn) : preserves R (raise (A := A) e).
Proof. intros w. reflexivity. Qed.

Lemma preserves_gets {A} (f : World -> A) : preserves R (gets f).
Proof. intros w. reflexivity. Qed.

Lemma preserves_modify (f : World -> World) :
  (forall w, R w (f w)) -> preserves R (modify f).
Proof. intros Hf w. apply Hf. Qed.

Lemma preserves_bind {A B} (m : M World A) (k : A -> M World B) :
  preserves R m -> (forall a, preserves R (k a)) -> preserves R (bind m k).
Proof.
  intros Hm Hk w. unfold bind. specialize (Hm w).
  destruct (m w) as [[a|e] w1]; cbn in *.
  - etransitivity; [exact Hm | apply Hk].
  - exact Hm.
Qed.

Lemma preserves_the_pad self : preserves R (the_pad self).
Proof.
  intros w. unfold the_pad. destruct (pads w !! self); reflexivity.
Qed.

Lemma preserves_getattr__prev_pad self : preserves R (getattr__prev_pad self).
Proof.
  intros w. unfold getattr__prev_pad.
  destruct (attr__prev_pad w !! self); reflexivity.
Qed.

Lemma preserves_TCanvas___init__ self x y ww wh :
  preserves R (TCanvas___init__ self x y ww wh).
Proof.
  intros w. unfold TCanvas___init__. cbn.
  etransitivity; [apply tolerates_insert | apply tolerates_gPad].
Qed.

Lemma preserves_alloc : preserves R alloc.
Proof. intros w. apply tolerates_next. Qed.

End preserved.

Create HintDb preserved discriminated.

#[export] Hint Resolve preserves_ret preserves_raise preserves_gets
  preserves_the_pad preserves_getattr__prev_pad preserves_TCanvas___init__
  preserves_alloc : preserved.

#[export] Hint Extern 1 (preserves _ (modify _)) =>
  apply preserves_modify; intros;
  first [ apply tolerates_alter | apply tolerates_insert | apply tolerates_hists
        | apply tolerates_gPad | apply tolerates_next | apply tolerates_prev
        | apply tolerates_sid ] : preserved.

(** Splits a computation along its binds and branches. *)
Ltac preserved_step :=
  match goal with
  | |- preserves _ (bind _ _) =>
      apply preserves_bind; [typeclasses eauto | | intros ?]
  | |- preserves _ (if ?b then _ else _) => destruct b
  | |- preserves _ (match ?x with _ => _ end) => destruct x
  | |- preserves _ (call ?r _) => unfold call
  | |- preserves _ null_pointer => apply preserves_raise; typeclasses eauto
  | |- preserves _ _ => solve [auto with preserved typeclass_instances]
  end.

Ltac preserved := repeat preserved_step.

Section preserved_toolkit.

Context (R : relation World) {T : Tolerates R}.

Lemma preserves_update_pad self f : preserves R (update_pad self f).
Proof. unfold update_pad. preserved. Qed.

Hint Resolve preserves_update_pad : preserved.

Lemma preserves_SetCanvasSize self ww wh : preserves R (SetCanvasSize self ww wh).
Proof. unfold SetCanvasSize. preserved. Qed.

Lemma preserves_SetWindowSize self ww wh : preserves R (SetWindowSize self ww wh).
Proof. unfold SetWindowSize. preserved. Qed.

Lemma preserves_getter {A} (self : handle) (f : TPad -> A) :
  preserves R (p <- the_pad self ;; ret (f p)).
Proof. preserved. Qed.

Lemma preserves_MakeDefCanvas : preserves R MakeDefCanvas.
Proof. unfold MakeDefCanvas. preserved. Qed.

Hint Resolve preserves_SetCanvasSize preserves_SetWindowSize
  preserves_getter preserves_MakeDefCanvas : preserved.

Lemma preserves_TPad_cd self args : preserves R (TPad_cd self args).
Proof. unfold TPad_cd. preserved. Qed.

Lemma preserves_TPad_Draw self args : preserves R (TPad_Draw self args).
Proof. unfold TPad_Draw, gPad_func. preserved. Qed.

Lemma preserves_Hist_new dim args : preserves R (Hist_new dim args).
Proof. unfold Hist_new. preserved. Qed.

Lemma preserves_Hist_Draw self option : preserves R (Hist_Draw self option).
Proof. unfold Hist_Draw, gPad_func. preserved. Qed.

Lemma preserves_set_limits axis lim : preserves R (set_limits axis lim).
Proof. unfold set_limits. preserved. Qed.

Hint Resolve preserves_TPad_cd preserves_TPad_Draw preserves_Hist_new
  preserves_Hist_Draw preserves_set_limits : preserved.

Lemma preserves_axes self ndim xl yl zl xb yb zb :
  preserves R (_PadBase.axes self ndim xl yl zl xb yb zb).
Proof. unfold _PadBase.axes, Hist, Hist2D, Hist3D. preserved. Qed.

Lemma preserves_Canvas___init__ self width height x y sid :
  preserves R (Canvas.__init__ self width height x y sid).
Proof.
  unfold Canvas.__init__, IsBatch, GetWw, GetWh,
    setattr_size_includes_decorations.
  preserved.
Qed.

Lemma preserves_set_width self value : preserves R (Canvas.set_width self value).
Proof.
  unfold Canvas.set_width, IsBatch, GetWw, GetWh,
    getattr_size_includes_decorations.
  preserved.
Qed.

Lemma preserves_set_height self value : preserves R (Canvas.set_height self value).
Proof.
  unfold Canvas.set_height, IsBatch, GetWw, GetWh,
    getattr_size_includes_decorations.
  preserved.
Qed.

End preserved_toolkit.

(** ** The keepalive registry *)

Lemma cd_runs {C : Conversion} (self : handle) (args : list Z) (w : World) :
  _PadBase.cd self args w
  = match TPad_cd self args w with
    | (Return r, w1) =>
        (Return (asrootpy r),
         if truthy (asrootpy r) && negb (py_is (asrootpy r) (Some self))
         then set_KEEPALIVE (add_edge (Some self) (asrootpy r) (KEEPALIVE w1)) w1
         else w1)
    | (Raise e, w1) => (Raise e, w1)
    end.
Proof.
  unfold _PadBase.cd, bind.
  destruct (TPad_cd self args w) as [[r|e] w1]; [|reflexivity].
  destruct (truthy (asrootpy r) && negb (py_is (asrootpy r) (Some self)));
    reflexivity.
Qed.

Lemma add_edge_has_edge nurse patient reg :
  has_edge (add_edge nurse patient reg) nurse patient.
Proof.
  unfold has_edge, add_edge. eexists. split; [apply lookup_insert_eq|].
  set_solver.
Qed.

Lemma TPad_Draw_keeps_self self args w u w1 :
  TPad_Draw self args w = (Return u, w1) -> is_Some (pads w1 !! self).
Proof.
  intros E.
  pose proof (preserves_TPad_Draw pads_stay self args w self) as Hstay.
  rewrite E in Hstay. apply Hstay.
  unfold TPad_Draw, bind, the_pad in E.
  destruct (pads w !! self); [eauto | discriminate].
Qed.

Lemma Draw_runs (self : handle) (args : list string) (w : World) :
  match TPad_Draw self args w with
  | (Return u, w1) =>
      exists p, pads w1 !! self = Some p
        /\ Pad.Draw self args w
           = (Return u,
              set_KEEPALIVE (add_edge (fCanvas p) (Some self) (KEEPALIVE w)) w1)
  | (Raise e, w1) => Pad.Draw self args w = (Raise e, w1)
  end.
Proof.
  pose proof (preserves_TPad_Draw same_registry self args w) as Hreg.
  pose proof (TPad_Draw_keeps_self self args w) as Hself.
  unfold Pad.Draw, bind. unfold same_registry in Hreg.
  destruct (TPad_Draw self args w) as [[u|e] w1]; [|reflexivity].
  destruct (Hself u w1 eq_refl) as [p Hp]. exists p. split; [exact Hp|].
  unfold GetCanvas, bind, the_pad. rewrite Hp. cbn in *.
  unfold keepalive, modify. now rewrite Hreg.
Qed.

(** C5, as the code has it: the registry changes in [cd] and in [Draw] and
    nowhere else. [cd] returns the conversion of what the native [cd]
    answered and adds the edge (self, returned pad) exactly when a pad was
    returned (the result is not null) and that pad is not self. [Draw] runs
    the native draw and then, whatever was drawn, adds the edge (canvas of
    the pad, pad). Building axes, constructing a canvas and resizing it
    leave the registry alone. *)
Theorem registry_changes_in_cd_and_Draw {C : Conversion}
    (self : handle) (w : World) :
  (forall args : list Z,
     fst (_PadBase.cd self args w)
     = match fst (TPad_cd self args w) with
       | Return r => Return (asrootpy r)
       | Raise e => Raise e
       end
     /\ KEEPALIVE (snd (_PadBase.cd self args w))
        = match fst (TPad_cd self args w) with
          | Return r =>
              match asrootpy r with
              | Some pad =>
                  if decide (pad = self) then KEEPALIVE w
                  else add_edge (Some self) (Some pad) (KEEPALIVE w)
              | None => KEEPALIVE w
              end
          | Raise _ => KEEPALIVE w
          end
     /\ snd (_PadBase.cd self args w)
        = set_KEEPALIVE (KEEPALIVE (snd (_PadBase.cd self args w)))
            (snd (TPad_cd self args w)))
  /\ (forall (args : list string) u w1,
        TPad_Draw self args w = (Return u, w1) ->
        exists p, pads w1 !! self = Some p
          /\ Pad.Draw self args w
             = (Return u,
                set_KEEPALIVE (add_edge (fCanvas p) (Some self) (KEEPALIVE w)) w1)
          /\ has_edge (KEEPALIVE (snd (Pad.Draw self args w)))
               (fCanvas p) (Some self))
  /\ (forall (args : list string) e w1,
        TPad_Draw self args w = (Raise e, w1) ->
        Pad.Draw self args w = (Raise e, w1))
  /\ (forall ndim xl yl zl xb yb zb,
        KEEPALIVE (snd (_PadBase.axes self ndim xl yl zl xb yb zb w))
        = KEEPALIVE w)
  /\ (forall width height x y sid,
        KEEPALIVE (snd (Canvas.__init__ self width height x y sid w))
        = KEEPALIVE w)
  /\ (forall value,
        KEEPALIVE (snd (Canvas.set_width self value w)) = KEEPALIVE w
        /\ KEEPALIVE (snd (Canvas.set_height self value w)) = KEEPALIVE w).
Proof.
  repeat apply conj.
  - intros args. rewrite cd_runs.
    pose proof (preserves_TPad_cd same_registry self args w) as Hreg.
    unfold same_registry in Hreg.
    destruct (TPad_cd self args w) as [[r|e] w1]; cbn in *;
      [|repeat split; try assumption; now destruct w1].
    destruct (asrootpy r) as [pad|]; cbn.
    + unfold py_is. destruct (decide (pad = self)) as [->|Hne].
      * rewrite bool_decide_eq_true_2 by reflexivity. cbn.
        repeat split; try assumption. now destruct w1.
      * rewrite bool_decide_eq_false_2 by congruence. cbn.
        rewrite Hreg. repeat split.
    + repeat split; try assumption. now destruct w1.
  - intros args u w1 E. pose proof (Draw_runs self args w) as HD.
    rewrite E in HD. destruct HD as [p [Hp HD]]. exists p.
    repeat split; try assumption. rewrite HD. cbn. apply add_edge_has_edge.
  - intros args e w1 E. pose proof (Draw_runs self args w) as HD.
    now rewrite E in HD.
  - intros. apply (preserves_axes same_registry).
  - intros. apply (preserves_Canvas___init__ same_registry).
  - intros. split.
    + apply (preserves_set_width same_registry).
    + apply (preserves_set_height same_registry).
Qed.

(** C5 as stated fails on a null result: canvas 1 has no sub-pad 5, so
    [cd(5)] returns the null reference, which is not canvas 1, and no edge
    is registered. *)
Lemma cd_null_registers_nothing :
  fst (_PadBase.cd (C := Sim.in_place) 1%positive [5] Scene.nested) = Return None
  /\ @None positive <> Some 1%positive
  /\ KEEPALIVE (snd (_PadBase.cd (C := Sim.in_place) 1%positive [5] Scene.nested))
     = KEEPALIVE Scene.nested
  /\ KEEPALIVE (snd (_PadBase.cd (C := Sim.in_place) 1%positive [5] Scene.nested))
     <> add_edge (Some 1%positive) None (KEEPALIVE Scene.nested).
Proof.
  repeat split; try (vm_compute; reflexivity); discriminate.
Qed.

(** ** Pixel geometry of nested pads *)

Section walk.

Context {C : Conversion}.

Lemma py_is_true (a b : ref) : py_is a b = true -> a = b.
Proof. unfold py_is. apply bool_decide_eq_true_1. Qed.

Lemma py_is_refl (a : ref) : py_is a a = true.
Proof. unfold py_is. now apply bool_decide_eq_true_2. Qed.

Lemma is_chain_cons_inv w canvas cur m ms :
  is_chain w canvas cur (m :: ms) = true ->
  cur <> canvas /\ cur = Some m
  /\ exists p, pads w !! m = Some p
       /\ is_chain w canvas (asrootpy (fMother p)) ms = true.
Proof.
  cbn. intros H.
  apply andb_prop in H as [H Hrest]. apply andb_prop in H as [Hne Hcur].
  apply py_is_true in Hcur. split; [|split; [exact Hcur|]].
  - intros ->. rewrite py_is_refl in Hne. discriminate.
  - destruct (pads w !! m) as [p|]; [|discriminate]. eauto.
Qed.

(** One turn of the loop, on a surface that is there. *)
Lemma walk_body_step (dim : TPad -> float) w m p acc :
  pads w !! m = Some p ->
  walk_body dim (Some m, acc) w
  = (Return (asrootpy (fMother p), (acc * dim p)%float), w).
Proof.
  intros Hp.
  unfold walk_body, call, _PadBase.mother, GetMother, bind, the_pad, ret.
  repeat (cbv beta iota zeta; rewrite Hp). reflexivity.
Qed.

(** On a chain of [length ms] surfaces the loop runs [length ms] times:
    with no more fuel than that it is still running, with more it stops on
    the canvas holding the product of the fields it met, and it has not
    touched the store. *)
Lemma walk_along_chain (dim : TPad -> float) (w : World) (canvas : ref)
    (ms : list handle) :
  forall (cur : ref) (acc : float) (fuel : nat),
    is_chain w canvas cur ms = true ->
    while fuel (walk_cond canvas) (walk_body dim) (cur, acc) w
    = if (fuel <=? length ms)%nat then None
      else Some (Return (canvas, fold_left PrimFloat.mul (along dim w ms) acc), w).
Proof.
  induction ms as [|m ms IH]; intros cur acc fuel Hchain.
  - cbn in Hchain. apply py_is_true in Hchain. subst cur.
    destruct fuel as [|fuel]; [reflexivity|].
    cbn. now rewrite py_is_refl.
  - apply is_chain_cons_inv in Hchain as (Hne & -> & p & Hp & Hrest).
    destruct fuel as [|fuel]; [reflexivity|].
    cbn [while].
    assert (Hc : walk_cond canvas (Some m, acc) = true).
    { unfold walk_cond, py_is. now rewrite bool_decide_eq_false_2. }
    rewrite Hc, (walk_body_step dim w m p acc Hp), (IH _ _ _ Hrest).
    cbn [along]. rewrite Hp. reflexivity.
Qed.

Lemma width_pixels_while_chain w canvas ms cur acc fuel :
  is_chain w canvas cur ms = true ->
  Pad.width_pixels_while fuel canvas (cur, acc) w
  = if (fuel <=? length ms)%nat then None
    else Some (Return (canvas, fold_left PrimFloat.mul (along fWNDC w ms) acc), w).
Proof. apply (walk_along_chain fWNDC). Qed.

Lemma height_pixels_while_chain w canvas ms cur acc fuel :
  is_chain w canvas cur ms = true ->
  Pad.height_pixels_while fuel canvas (cur, acc) w
  = if (fuel <=? length ms)%nat then None
    else Some (Return (canvas, fold_left PrimFloat.mul (along fHNDC w ms) acc), w).
Proof. apply (walk_along_chain fHNDC). Qed.

(** No surface of a chain is the canvas the chain leads to. *)
Lemma is_chain_below_canvas w canvas ms :
  forall cur, is_chain w canvas cur ms = true ->
              Forall (fun m => Some m <> canvas) ms.
Proof.
  induction ms as [|m ms IH]; intros cur H; [constructor|].
  apply is_chain_cons_inv in H as (Hne & -> & p & Hp & Hrest).
  constructor; [exact Hne | eapply IH, Hrest].
Qed.

End walk.

Section pixels.

Context {C : Conversion}.

Lemma width_pixels_unfold (fuel : nat) (self : handle) (p : TPad) (w : World) :
  pads w !! self = Some p ->
  Pad.width_pixels fuel self w
  = match Pad.width_pixels_while fuel (asrootpy (fCanvas p))
            (asrootpy (fMother p), fWNDC p) w with
    | None => None
    | Some (Raise e, w2) => Some (Raise e, w2)
    | Some (Return (mother, x), w2) =>
        Some ((mw <- call mother Pad.getattr_width ;; Pad.int_of_product x mw) w2)
    end.
Proof.
  intros Hp.
  unfold Pad.width_pixels, around_loop, _PadBase.mother, _PadBase.canvas,
    GetMother, GetCanvas, GetWNDC, bind, the_pad, ret.
  repeat (cbv beta iota zeta; rewrite Hp).
  destruct (Pad.width_pixels_while _ _ _ _) as [[[[m x]|e] w2]|]; reflexivity.
Qed.

Lemma height_pixels_unfold (fuel : nat) (self : handle) (p : TPad) (w : World) :
  pads w !! self = Some p ->
  Pad.height_pixels fuel self w
  = match Pad.height_pixels_while fuel (asrootpy (fCanvas p))
            (asrootpy (fMother p), fHNDC p) w with
    | None => None
    | Some (Raise e, w2) => Some (Raise e, w2)
    | Some (Return (mother, x), w2) =>
        Some ((mh <- call mother Pad.getattr_height ;; Pad.int_of_product x mh) w2)
    end.
Proof.
  intros Hp.
  unfold Pad.height_pixels, around_loop, _PadBase.mother, _PadBase.canvas,
    GetMother, GetCanvas, GetHNDC, bind, the_pad, ret.
  repeat (cbv beta iota zeta; rewrite Hp).
  destruct (Pad.height_pixels_while _ _ _ _) as [[[[m x]|e] w2]|]; reflexivity.
Qed.

(** The chained product of floats is the running product of the loop. *)
Lemma py_product_floats (ds : list float) (b : num) :
  forall a : float,
    py_product (PyFloat a) (map PyFloat ds ++ [b])
    = py_mul (PyFloat (fold_left PrimFloat.mul ds a)) b.
Proof.
  induction ds as [|d ds IH]; intros a.
  - cbn [map app py_product fold_left].
    now destruct (py_mul (PyFloat a) b).
  - cbn [map app py_product fold_left py_mul]. apply IH.
Qed.

Lemma int_of_product_chain (ds : list float) (a : float) (b : num) (w : World) :
  Pad.int_of_product (fold_left PrimFloat.mul ds a) b w
  = (py_int_product (PyFloat a) (map PyFloat ds ++ [b]), w).
Proof.
  unfold Pad.int_of_product, py_int_product.
  rewrite py_product_floats.
  now destruct (py_mul _ b).
Qed.

Lemma getattr_width_canvas (c : handle) (pc : TPad) (w : World) :
  pads w !! c = Some pc -> surface_class pc = Canvas_class ->
  Pad.getattr_width c w = (Return (PyInt (fCw pc)), w).
Proof.
  intros Hc Hk.
  unfold Pad.getattr_width, Canvas.width, GetWw, bind, the_pad, ret.
  repeat (cbv beta iota zeta; rewrite ?Hc, ?Hk). reflexivity.
Qed.

Lemma getattr_height_canvas (c : handle) (pc : TPad) (w : World) :
  pads w !! c = Some pc -> surface_class pc = Canvas_class ->
  Pad.getattr_height c w = (Return (PyInt (fCh pc)), w).
Proof.
  intros Hc Hk.
  unfold Pad.getattr_height, Canvas.height, GetWh, bind, the_pad, ret.
  repeat (cbv beta iota zeta; rewrite ?Hc, ?Hk). reflexivity.
Qed.

(** C1: for a pad under a canvas of [W] x [H] pixels, with the normalized
    widths [w1, ..., wn] (heights [h1, ..., hn]) of the surfaces from the pad
    up to, and without, the canvas, [width_pixels] is [int(w1 * ... * wn * W)]
    and [height_pixels] is [int(h1 * ... * hn * H)]. *)
Theorem pixels_are_int_of_chained_product
    (w : World) (self c : handle) (p pc : TPad) (ms : list handle) (fuel : nat) :
  pads w !! self = Some p ->
  asrootpy (fCanvas p) = Some c ->
  pads w !! c = Some pc ->
  surface_class pc = Canvas_class ->
  is_chain w (Some c) (asrootpy (fMother p)) ms = true ->
  (length ms < fuel)%nat ->
  Pad.width_pixels fuel self w
  = Some (py_int_product (PyFloat (fWNDC p))
            (map PyFloat (along fWNDC w ms) ++ [PyInt (fCw pc)]), w)
  /\ Pad.height_pixels fuel self w
     = Some (py_int_product (PyFloat (fHNDC p))
               (map PyFloat (along fHNDC w ms) ++ [PyInt (fCh pc)]), w).
Proof.
  intros Hp Hcanvas Hc Hk Hchain Hfuel.
  apply Nat.leb_gt in Hfuel.
  split.
  - rewrite (width_pixels_unfold fuel self p w Hp), Hcanvas.
    rewrite (width_pixels_while_chain w (Some c) ms _ _ fuel Hchain), Hfuel.
    unfold call. erewrite bind_Return by (eapply getattr_width_canvas; eassumption).
    now rewrite int_of_product_chain.
  - rewrite (height_pixels_unfold fuel self p w Hp), Hcanvas.
    rewrite (height_pixels_while_chain w (Some c) ms _ _ fuel Hchain), Hfuel.
    unfold call. erewrite bind_Return by (eapply getattr_height_canvas; eassumption).
    now rewrite int_of_product_chain.
Qed.

(** C9: when the mother chain of a pad reaches its canvas after [n]
    surfaces, none of which is the canvas, the walk of [width_pixels] and of
    [height_pixels] is still running after [n] tests of its condition and
    over at the next one, on the canvas: both properties return. *)
Theorem mother_walk_stops_at_canvas
    (w : World) (self : handle) (p : TPad) (ms : list handle) :
  pads w !! self = Some p ->
  is_chain w (asrootpy (fCanvas p)) (asrootpy (fMother p)) ms = true ->
  Forall (fun m => Some m <> asrootpy (fCanvas p)) ms
  /\ forall fuel : nat,
       ((fuel <= length ms)%nat ->
          Pad.width_pixels_while fuel (asrootpy (fCanvas p))
            (asrootpy (fMother p), fWNDC p) w = None
          /\ Pad.height_pixels_while fuel (asrootpy (fCanvas p))
               (asrootpy (fMother p), fHNDC p) w = None
          /\ Pad.width_pixels fuel self w = None
          /\ Pad.height_pixels fuel self w = None)
       /\ ((length ms < fuel)%nat ->
          (exists x, Pad.width_pixels_while fuel (asrootpy (fCanvas p))
                       (asrootpy (fMother p), fWNDC p) w
                     = Some (Return (asrootpy (fCanvas p), x), w))
          /\ (exists y, Pad.height_pixels_while fuel (asrootpy (fCanvas p))
                          (asrootpy (fMother p), fHNDC p) w
                        = Some (Return (asrootpy (fCanvas p), y), w))
          /\ (exists r, Pad.width_pixels fuel self w = Some r)
          /\ (exists r, Pad.height_pixels fuel self w = Some r)).
Proof.
  intros Hp Hchain. split; [eapply is_chain_below_canvas, Hchain|].
  intros fuel.
  rewrite (width_pixels_unfold fuel self p w Hp),
    (height_pixels_unfold fuel self p w Hp).
  rewrite (width_pixels_while_chain w _ ms _ _ fuel Hchain),
    (height_pixels_while_chain w _ ms _ _ fuel Hchain).
  split; intros Hfuel.
  - apply Nat.leb_le in Hfuel. rewrite Hfuel. repeat split.
  - apply Nat.leb_gt in Hfuel. rewrite Hfuel. repeat split; eexists; reflexivity.
Qed.

End pixels.

(** Pad 3 sits two levels under canvas 1 (800 x 600): its width in pixels
    is [int(0.25 * 0.5 * 800)] and its height [int(0.5 * 0.75 * 600)]. *)
Lemma nested_pad_pixels :
  Pad.width_pixels (C := Sim.in_place) 2 3%positive Scene.nested
  = Some (Return 100, Scene.nested)
  /\ Pad.height_pixels (C := Sim.in_place) 2 3%positive Scene.nested
     = Some (Return 225, Scene.nested).
Proof.
  destruct (pixels_are_int_of_chained_product (C := Sim.in_place)
              Scene.nested 3%positive 1%positive
              (Scene.a_pad 2 1 1 0.25%float 0.5%float)
              (add_primitive 2 (Scene.a_canvas 1 800 600))
              [2%positive] 2) as [Hw Hh];
    try (vm_compute; reflexivity).
  rewrite Hw, Hh. split; vm_compute; reflexivity.
Defined.

(** The walk from pad 3 meets pad 2 and stops on canvas 1. *)
Lemma nested_pad_walk :
  Forall (fun m => Some m <> Some 1%positive) [2%positive]
  /\ Pad.width_pixels (C := Sim.in_place) 1 3%positive Scene.nested = None
  /\ exists r, Pad.width_pixels (C := Sim.in_place) 2 3%positive Scene.nested
               = Some r.
Proof.
  destruct (mother_walk_stops_at_canvas (C := Sim.in_place)
              Scene.nested 3%positive
              (Scene.a_pad 2 1 1 0.25%float 0.5%float) [2%positive])
    as [Hbelow Hwalk]; try (vm_compute; reflexivity).
  split; [exact Hbelow|].
  split.
  - apply (Hwalk 1%nat). cbn. lia.
  - apply (Hwalk 2%nat). cbn. lia.
Defined.

(** ** Canvas size *)

Lemma the_pad_at w self p :
  pads w !! self = Some p -> the_pad self w = (Return p, w).
Proof. intros Hp. unfold the_pad. now rewrite Hp. Qed.

Lemma alter_at (m : gmap handle TPad) self p f :
  m !! self = Some p -> alter f self m = <[self := f p]> m.
Proof.
  intros Hp. apply map_eq. intros k.
  destruct (decide (k = self)) as [->|Hne].
  - now rewrite lookup_alter_eq, lookup_insert_eq, Hp.
  - now rewrite lookup_alter_ne, lookup_insert_ne by congruence.
Qed.

Lemma update_pad_at w self p f :
  pads w !! self = Some p ->
  update_pad self f w = (Return tt, set_pads (<[self := f p]> (pads w)) w).
Proof.
  intros Hp. unfold update_pad.
  rewrite (bind_Return _ _ _ _ _ (the_pad_at w self p Hp)).
  unfold modify. now rewrite (alter_at _ _ _ _ Hp).
Qed.

Lemma getter_at {A} (f : TPad -> A) w self p :
  pads w !! self = Some p ->
  (q <- the_pad self ;; ret (f q)) w = (Return (f p), w).
Proof.
  intros Hp. now rewrite (bind_Return _ _ _ _ _ (the_pad_at w self p Hp)).
Qed.

Lemma SetCanvasSize_at w self p ww wh :
  pads w !! self = Some p ->
  SetCanvasSize self ww wh w
  = (Return tt, set_pads (<[self := with_canvas_size ww wh p]> (pads w)) w).
Proof. apply update_pad_at. Qed.

Lemma SetWindowSize_at w self p ww wh :
  pads w !! self = Some p -> fBatch p = false ->
  SetWindowSize self ww wh w
  = (Return tt,
     set_pads (<[self := with_window ww wh (decorations w) p]> (pads w)) w).
Proof.
  intros Hp Hb. unfold SetWindowSize.
  rewrite (bind_Return _ _ _ _ _ (the_pad_at w self p Hp)), Hb.
  unfold gets, bind. now rewrite (update_pad_at _ _ _ _ Hp).
Qed.

Lemma insert_twice (m : gmap handle TPad) self p q :
  <[self := q]> (<[self := p]> m) = <[self := q]> m.
Proof. apply insert_insert_eq. Qed.

Lemma TCanvas___init___runs w self x y ww wh :
  TCanvas___init__ self x y ww wh w
  = (Return tt,
     set_gPad (Some self)
       (set_pads (<[self := new_canvas w self x y ww wh]> (pads w)) w)).
Proof. reflexivity. Qed.

Lemma new_canvas_batch w self x y ww wh :
  fBatch (new_canvas w self x y ww wh) = gROOT_batch w.
Proof. reflexivity. Qed.

(** C7: construction takes every size and position that was not given from
    the global style. The native constructor alone leaves a paintable area
    that is smaller than the requested size by the decoration. With
    [size_includes_decorations] false the wrapper makes up for it, so that
    the paintable area has the requested size: in batch mode by setting the
    canvas size directly, and with a window by resizing the window by the
    difference between the requested and the actual paintable size. With
    [size_includes_decorations] true the canvas is left as the constructor
    made it. *)
Theorem Canvas_init_paintable_size
    (self : handle) (width height x y : option Z) (sid : bool) (w : World) :
  let width' := match width with Some v => v | None => CanvasDefW (gStyle w) end in
  let height' := match height with Some v => v | None => CanvasDefH (gStyle w) end in
  let x' := match x with Some v => v | None => CanvasDefX (gStyle w) end in
  let y' := match y with Some v => v | None => CanvasDefY (gStyle w) end in
  exists (w' : World) (c : TPad),
    Canvas.__init__ self width height x y sid w = (Return tt, w')
    /\ pads w' !! self = Some c
    /\ attr_size_includes_decorations w' !! self = Some sid
    /\ surface_class c = Canvas_class
    /\ fBatch c = gROOT_batch w
    /\ fWindowTopX c = x' /\ fWindowTopY c = y'
    /\ Canvas.width_pixels self w' = (Return (fCw c), w')
    /\ Canvas.height_pixels self w' = (Return (fCh c), w')
    /\ (sid = false -> fCw c = width' /\ fCh c = height')
    /\ (sid = false -> gROOT_batch w = true ->
        c = with_canvas_size width' height' (new_canvas w self x' y' width' height'))
    /\ (sid = false -> gROOT_batch w = false ->
        let c0 := new_canvas w self x' y' width' height' in
        c = with_window (width' + (width' - fCw c0)) (height' + (height' - fCh c0))
              (decorations w) c0
        /\ fWindowWidth c = width' + fst (decorations w)
        /\ fWindowHeight c = height' + snd (decorations w))
    /\ (sid = true -> fWindowWidth c = width' /\ fWindowHeight c = height')
    /\ (sid = true ->
        c = new_canvas w self x' y' width' height'
        /\ fCw c = width' - fst (decorations w)
        /\ fCh c = height' - snd (decorations w))
    /\ (sid = false -> gROOT_batch w = true ->
        fWindowWidth c = width' /\ fWindowHeight c = height')
    /\ gPad w' = Some self
    /\ forall other, other <> self -> pads w' !! other = pads w !! other.
Proof.
  intros width' height' x' y'.
  unfold Canvas.__init__.
  erewrite bind_Return by reflexivity.
  fold width' height' x' y'.
  erewrite bind_Return by apply TCanvas___init___runs.
  set (c0 := new_canvas w self x' y' width' height').
  set (w1 := set_gPad (Some self) (set_pads (<[self := c0]> (pads w)) w)).
  assert (H1 : pads w1 !! self = Some c0) by apply lookup_insert_eq.
  assert (Hb : fBatch c0 = gROOT_batch w) by apply new_canvas_batch.
  assert (Hothers : forall other, other <> self ->
            pads w1 !! other = pads w !! other).
  { intros other Hne. unfold w1. cbn. now apply lookup_insert_ne. }
  unfold setattr_size_includes_decorations, modify.
  destruct sid; cbn [negb].
  - erewrite bind_Return by reflexivity.
    eexists _, c0. split; [reflexivity|].
    split; [exact H1|]. split; [apply lookup_insert_eq|].
    unfold Canvas.width_pixels, Canvas.height_pixels, GetWw, GetWh.
    rewrite !(getter_at _ _ self c0) by exact H1.
    repeat split; try discriminate; try exact Hb; exact Hothers.
  - unfold IsBatch. rewrite bind_assoc.
    erewrite bind_Return by apply (getter_at fBatch w1 self c0 H1).
    rewrite Hb. destruct (gROOT_batch w) eqn:Hbatch.
    + erewrite bind_Return by apply (SetCanvasSize_at w1 self c0 _ _ H1).
      eexists _, (with_canvas_size width' height' c0).
      split; [reflexivity|].
      split; [apply lookup_insert_eq|]. split; [apply lookup_insert_eq|].
      unfold Canvas.width_pixels, Canvas.height_pixels, GetWw, GetWh.
      rewrite !(getter_at _ _ self (with_canvas_size width' height' c0))
        by apply lookup_insert_eq.
      repeat split; try discriminate; try exact Hb.
      intros other Hne. cbn. rewrite lookup_insert_ne by congruence.
      now apply Hothers.
    + unfold GetWw, GetWh. rewrite bind_assoc.
      erewrite bind_Return by apply (getter_at fCw w1 self c0 H1).
      rewrite bind_assoc.
      erewrite bind_Return by apply (getter_at fCh w1 self c0 H1).
      erewrite bind_Return
        by (apply (SetWindowSize_at w1 self c0 _ _ H1); now rewrite Hb).
      eexists _, _. split; [reflexivity|].
      split; [apply lookup_insert_eq|]. split; [apply lookup_insert_eq|].
      unfold Canvas.width_pixels, Canvas.height_pixels, GetWw, GetWh.
      erewrite !getter_at by apply lookup_insert_eq.
      repeat split; try discriminate; try exact Hb;
        try (subst c0; cbn; lia).
      intros other Hne. cbn. rewrite lookup_insert_ne by congruence.
      now apply Hothers.
Qed.

(** C8, as the code has it: in batch mode the setter sets the canvas size
    directly, and with a window it compensates for the decoration only
    when [size_includes_decorations] is false. In both of these cases
    assigning [v] to [width] makes [width_pixels] equal [v] and leaves
    [height_pixels] as it was. With a window and [size_includes_decorations]
    true the window, decoration included, gets the width [v], so
    [width_pixels] is [v] less the decoration. *)
Theorem set_width_paintable_size
    (self : handle) (v : Z) (w : World) (c : TPad) :
  pads w !! self = Some c ->
  let sid := default false (attr_size_includes_decorations w !! self) in
  exists (w' : World) (c' : TPad),
    Canvas.set_width self v w = (Return tt, w')
    /\ pads w' !! self = Some c'
    /\ Canvas.height_pixels self w = (Return (fCh c), w)
    /\ Canvas.width_pixels self w' = (Return (fCw c'), w')
    /\ Canvas.height_pixels self w' = (Return (fCh c'), w')
    /\ (fBatch c = true \/ sid = false -> fCw c' = v /\ fCh c' = fCh c)
    /\ (fBatch c = true -> c' = with_canvas_size v (fCh c) c)
    /\ (fBatch c = false -> sid = false ->
        fWindowWidth c' = v + fst (decorations w)
        /\ fWindowHeight c' = fCh c + snd (decorations w))
    /\ (fBatch c = false -> sid = true ->
        fWindowWidth c' = v /\ fCw c' = v - fst (decorations w)).
Proof.
  intros Hc sid.
  assert (Hh : Canvas.height_pixels self w = (Return (fCh c), w))
    by apply (getter_at fCh w self c Hc).
  unfold Canvas.set_width, IsBatch, GetWw, GetWh.
  erewrite bind_Return by apply (getter_at fBatch w self c Hc).
  destruct (fBatch c) eqn:Hbatch.
  - erewrite bind_Return by apply (getter_at fCh w self c Hc).
    rewrite (SetCanvasSize_at w self c _ _ Hc).
    eexists _, (with_canvas_size v (fCh c) c).
    split; [reflexivity|]. split; [apply lookup_insert_eq|].
    split; [exact Hh|].
    unfold Canvas.width_pixels, Canvas.height_pixels, GetWw, GetWh.
    rewrite !(getter_at _ _ self (with_canvas_size v (fCh c) c))
      by apply lookup_insert_eq.
    cbn. repeat split; discriminate.
  - erewrite bind_Return by apply (getter_at fCh w self c Hc).
    erewrite bind_Return by apply (SetWindowSize_at w self c _ _ Hc Hbatch).
    set (c1 := with_window v (fCh c) (decorations w) c).
    set (w1 := set_pads (<[self := c1]> (pads w)) w).
    assert (H1 : pads w1 !! self = Some c1) by apply lookup_insert_eq.
    erewrite bind_Return by reflexivity.
    change (default false (attr_size_includes_decorations w1 !! self)) with sid.
    destruct sid eqn:Hsid; cbn [negb].
    + eexists _, c1. split; [reflexivity|]. split; [exact H1|].
      split; [exact Hh|].
      unfold Canvas.width_pixels, Canvas.height_pixels, GetWw, GetWh.
      rewrite !(getter_at _ _ self c1) by exact H1.
      repeat split; try discriminate;
        match goal with H : _ \/ _ |- _ => destruct H; discriminate end.
    + erewrite bind_Return by apply (getter_at fCw w1 self c1 H1).
      erewrite bind_Return by apply (getter_at fCh w1 self c1 H1).
      rewrite (SetWindowSize_at w1 self c1 _ _ H1 Hbatch).
      eexists _, _. split; [reflexivity|]. split; [apply lookup_insert_eq|].
      split; [exact Hh|].
      unfold Canvas.width_pixels, Canvas.height_pixels, GetWw, GetWh.
      erewrite !getter_at by apply lookup_insert_eq.
      cbn. repeat split; try discriminate; lia.
Qed.

(** A canvas constructed with a window and [size_includes_decorations]
    false, 500 pixels wide and as high as the style says: after
    [canvas.width = 800] it is 800 pixels wide and as high as before. *)
Lemma set_width_800 :
  let w := snd (Canvas.__init__ 1%positive (Some 500) None None None false
                  (Scene.fresh false)) in
  exists w' c',
    Canvas.set_width 1%positive 800 w = (Return tt, w')
    /\ pads w' !! 1%positive = Some c'
    /\ Canvas.height_pixels 1%positive w = (Return 500, w)
    /\ Canvas.width_pixels 1%positive w' = (Return 800, w')
    /\ Canvas.height_pixels 1%positive w' = (Return 500, w').
Proof.
  intros w.
  destruct (set_width_paintable_size 1%positive 800 w
              (with_window 504 528 (4, 28) (new_canvas (Scene.fresh false) 1 10 10 500 500)))
    as (w' & c' & Hrun & Hc' & Hh & Hwp & Hhp & Hsize & _);
    [vm_compute; reflexivity|].
  destruct Hsize as [Hcw Hch]; [right; vm_compute; reflexivity|].
  exists w', c'. rewrite Hwp, Hhp, Hcw, Hch. repeat split; assumption.
Defined.

(** C8 as stated fails with a window and [size_includes_decorations] true:
    the canvas is 696 x 472 pixels inside its 700 x 500 window; after
    [canvas.width = 800] it is 796 pixels wide, and 444 high. *)
Lemma set_width_with_decorations :
  let w := snd (Canvas.__init__ 1%positive (Some 700) (Some 500) None None true
                  (Scene.fresh false)) in
  let w' := snd (Canvas.set_width 1%positive 800 w) in
  fst (Canvas.width_pixels 1%positive w) = Return 696
  /\ fst (Canvas.height_pixels 1%positive w) = Return 472
  /\ fst (Canvas.set_width 1%positive 800 w) = Return tt
  /\ fst (Canvas.width_pixels 1%positive w') = Return 796
  /\ fst (Canvas.height_pixels 1%positive w') = Return 444.
Proof. vm_compute. repeat split. Qed.

(** ** The current pad around a [with] block *)

Section scope.

Context {C : Conversion}.

Lemma cd_no_args_runs (p : handle) (ps : TPad) (w : World) :
  pads w !! p = Some ps ->
  exists w',
    _PadBase.cd p [] w = (Return (asrootpy (Some p)), w')
    /\ gPad w' = Some p
    /\ pads w' = pads w
    /\ attr__prev_pad w' = attr__prev_pad w.
Proof.
  intros Hp. rewrite cd_runs. unfold TPad_cd.
  rewrite (bind_Return _ _ _ _ _ (the_pad_at w p ps Hp)).
  cbn.
  destruct (truthy (asrootpy (Some p)) && negb (py_is (asrootpy (Some p)) (Some p)));
    eexists; repeat split.
Qed.

Lemma cd_no_args_fails (p : handle) (w : World) :
  pads w !! p = None ->
  exists e, _PadBase.cd p [] w = (Raise e, w).
Proof.
  intros Hp. rewrite cd_runs. unfold TPad_cd, bind, the_pad.
  rewrite Hp. eexists. reflexivity.
Qed.

(** [__enter__] on a surface that is there records the current pad and
    makes the surface current. *)
Lemma enter_runs (self : handle) (ps : TPad) (w : World) :
  pads w !! self = Some ps ->
  exists w1,
    _PadBase.__enter__ self w = (Return self, w1)
    /\ gPad w1 = Some self
    /\ pads w1 = pads w
    /\ attr__prev_pad w1 !! self = Some (gPad w).
Proof.
  intros Hp. unfold _PadBase.__enter__, gPad_func.
  erewrite bind_Return by reflexivity.
  erewrite bind_Return by reflexivity.
  set (w0 := set_attr__prev_pad (<[self := gPad w]> (attr__prev_pad w)) w).
  destruct (cd_no_args_runs self ps w0 Hp) as (w1 & Hcd & Hg & Hpads & Hattr).
  rewrite (bind_Return _ _ _ _ _ Hcd).
  exists w1. split; [reflexivity|]. split; [exact Hg|]. split; [exact Hpads|].
  rewrite Hattr. apply lookup_insert_eq.
Qed.

(** On a surface that is not there it raises, and the current pad stays. *)
Lemma enter_fails (self : handle) (w : World) :
  pads w !! self = None ->
  exists e w1, _PadBase.__enter__ self w = (Raise e, w1) /\ gPad w1 = gPad w.
Proof.
  intros Hp. unfold _PadBase.__enter__, gPad_func.
  erewrite bind_Return by reflexivity.
  erewrite bind_Return by reflexivity.
  set (w0 := set_attr__prev_pad (<[self := gPad w]> (attr__prev_pad w)) w).
  destruct (cd_no_args_fails self w0 Hp) as [e He].
  rewrite (bind_Raise _ _ _ _ _ He). exists e, w0. split; reflexivity.
Qed.

(** [__exit__] puts back the pad it finds recorded, provided that pad is
    still there, and lets an exception through. *)
Lemma exit_runs (self : handle) (exc : option exn) (prev : ref) (w : World) :
  attr__prev_pad w !! self = Some prev ->
  (forall p, prev = Some p -> is_Some (pads w !! p)) ->
  exists w3,
    _PadBase.__exit__ self exc w = (Return false, w3) /\ gPad w3 = prev.
Proof.
  intros Hattr Hlive. unfold _PadBase.__exit__.
  assert (Hget : getattr__prev_pad self w = (Return prev, w)).
  { unfold getattr__prev_pad. now rewrite Hattr. }
  rewrite (bind_Return _ _ _ _ _ Hget).
  destruct prev as [p|]; cbn [truthy].
  - destruct (Hlive p eq_refl) as [ps Hps].
    destruct (cd_no_args_runs p ps w Hps) as (w' & Hcd & Hg & _ & _).
    unfold call. rewrite bind_assoc, (bind_Return _ _ _ _ _ Hcd).
    eexists. split; [reflexivity|]. exact Hg.
  - unfold gPad_func. rewrite bind_assoc.
    erewrite bind_Return by reflexivity.
    destruct (gPad w) as [g|] eqn:Hg; cbn [truthy].
    + eexists. split; reflexivity.
    + eexists. split; [reflexivity|]. exact Hg.
Qed.

(** A [with] block whose body does not enter the same surface again (it
    leaves the recorded pad in place) puts the current pad back on every
    way out, and raises what its body raised. *)
Lemma with_restores_current_pad {A}
    (self : handle) (body : M World A) (w : World) :
  (forall p, gPad w = Some p -> is_Some (pads w !! p)) ->
  keeps_scope self (gPad w) body ->
  gPad (snd (_PadBase.with_ self body w)) = gPad w
  /\ (forall w1, _PadBase.__enter__ self w = (Return self, w1) ->
      match fst (body w1) with
      | Return a => fst (_PadBase.with_ self body w) = Return (Some a)
      | Raise e => fst (_PadBase.with_ self body w) = Raise e
      end).
Proof.
  intros Hlive Hkeeps. unfold _PadBase.with_, py_with.
  destruct (pads w !! self) as [ps|] eqn:Hself.
  - destruct (enter_runs self ps w Hself) as (w1 & Henter & _ & Hpads & Hattr).
    rewrite Henter.
    assert (Hlive1 : forall p, gPad w = Some p -> is_Some (pads w1 !! p))
      by (intros p Hp; rewrite Hpads; auto).
    destruct (Hkeeps w1 Hattr Hlive1) as [Hattr2 Hlive2].
    destruct (body w1) as [[a|e] w2] eqn:Hbody; cbn [snd] in *.
    + destruct (exit_runs self None (gPad w) w2 Hattr2 Hlive2) as (w3 & Hexit & Hg).
      rewrite Hexit. split; [exact Hg|].
      intros w1' [= <-]. now rewrite Hbody.
    + destruct (exit_runs self (Some e) (gPad w) w2 Hattr2 Hlive2)
        as (w3 & Hexit & Hg).
      rewrite Hexit. split; [exact Hg|].
      intros w1' [= <-]. now rewrite Hbody.
  - destruct (enter_fails self w Hself) as (e & w1 & Henter & Hg).
    rewrite Henter. split; [exact Hg|].
    intros w1' [=].
Qed.

End scope.

(** C6 fails when the block is entered again on the same surface: canvas 1
    is current, canvas 2 is entered twice; the inner exit clears the record
    of the outer entry, and the outer exit resets the current pad to none
    instead of putting canvas 1 back. *)
Lemma nested_with_loses_current_pad :
  gPad Scene.two_canvases = Some 1%positive
  /\ fst (_PadBase.with_ (C := Sim.in_place) 2%positive
            (_PadBase.with_ (C := Sim.in_place) 2%positive (ret tt))
            Scene.two_canvases)
     = Return (Some (Some tt))
  /\ gPad (snd (_PadBase.with_ (C := Sim.in_place) 2%positive
                  (_PadBase.with_ (C := Sim.in_place) 2%positive (ret tt))
                  Scene.two_canvases))
     = None.
Proof. vm_compute. repeat split. Qed.

(** With a body that only raises, canvas 1 is current again after the
    block on canvas 2, and the exception comes out of the block. *)
Lemma with_raise_restores :
  gPad (snd (_PadBase.with_ (C := Sim.in_place) 2%positive
               (raise (A := unit) (ValueError "boom")) Scene.two_canvases))
  = Some 1%positive
  /\ fst (_PadBase.with_ (C := Sim.in_place) 2%positive
            (raise (A := unit) (ValueError "boom")) Scene.two_canvases)
     = Raise (ValueError "boom").
Proof.
  destruct (with_restores_current_pad (C := Sim.in_place) 2%positive
              (raise (A := unit) (ValueError "boom")) Scene.two_canvases)
    as [Hg Hout].
  - intros p [= <-]. vm_compute. eauto.
  - intros w Hattr Hlive. split; assumption.
  - split; [exact Hg|].
    destruct (enter_runs (C := Sim.in_place) 2%positive
                (Scene.a_canvas 2 400 300) Scene.two_canvases)
      as (w1 & Henter & _); [vm_compute; reflexivity|].
    exact (Hout w1 Henter).
Defined.


(** ** Assigning both sizes of a canvas *)

Lemma with_window_twice ww wh ww' wh' deco c :
  with_window ww wh deco (with_window ww' wh' deco c) = with_window ww wh deco c.
Proof. reflexivity. Qed.

Lemma with_window_compensated ww wh deco c :
  with_window (ww + (ww - fCw (with_window ww wh deco c)))
    (wh + (wh - fCh (with_window ww wh deco c))) deco (with_window ww wh deco c)
  = with_window (ww + fst deco) (wh + snd deco) deco c.
Proof. unfold with_window. cbn. f_equal; lia. Qed.

(** What the setter of [width] leaves in the store. *)
Lemma set_width_runs (self : handle) (v : Z) (w : World) (c : TPad) :
  pads w !! self = Some c ->
  Canvas.set_width self v w
  = (Return tt,
     set_pads (<[self := resized v (fCh c)
                           (default false (attr_size_includes_decorations w !! self))
                           (decorations w) c]> (pads w)) w).
Proof.
  intros Hc. unfold Canvas.set_width, IsBatch, GetWw, GetWh, resized.
  erewrite bind_Return by apply (getter_at fBatch w self c Hc).
  destruct (fBatch c) eqn:Hbatch.
  - erewrite bind_Return by apply (getter_at fCh w self c Hc).
    apply (SetCanvasSize_at w self c _ _ Hc).
  - erewrite bind_Return by apply (getter_at fCh w self c Hc).
    erewrite bind_Return by apply (SetWindowSize_at w self c _ _ Hc Hbatch).
    set (c1 := with_window v (fCh c) (decorations w) c).
    set (w1 := set_pads (<[self := c1]> (pads w)) w).
    assert (H1 : pads w1 !! self = Some c1) by apply lookup_insert_eq.
    erewrite bind_Return by reflexivity.
    change (default false (attr_size_includes_decorations w1 !! self))
      with (default false (attr_size_includes_decorations w !! self)).
    destruct (default false (attr_size_includes_decorations w !! self));
      cbn [negb].
    + reflexivity.
    + erewrite bind_Return by apply (getter_at fCw w1 self c1 H1).
      erewrite bind_Return by apply (getter_at fCh w1 self c1 H1).
      rewrite (SetWindowSize_at w1 self c1 _ _ H1 Hbatch).
      subst w1 c1.
      change (decorations (set_pads _ w)) with (decorations w).
      rewrite with_window_compensated.
      unfold set_pads at 1. cbn [pads hists gPad next_handle gROOT_batch gStyle
        decorations KEEPALIVE attr__prev_pad attr_size_includes_decorations set_pads].
      now rewrite insert_insert_eq.
Qed.

(** What the setter of [height] leaves in the store. *)
Lemma set_height_runs (self : handle) (v : Z) (w : World) (c : TPad) :
  pads w !! self = Some c ->
  Canvas.set_height self v w
  = (Return tt,
     set_pads (<[self := resized (fCw c) v
                           (default false (attr_size_includes_decorations w !! self))
                           (decorations w) c]> (pads w)) w).
Proof.
  intros Hc. unfold Canvas.set_height, IsBatch, GetWw, GetWh, resized.
  erewrite bind_Return by apply (getter_at fBatch w self c Hc).
  destruct (fBatch c) eqn:Hbatch.
  - erewrite bind_Return by apply (getter_at fCw w self c Hc).
    apply (SetCanvasSize_at w self c _ _ Hc).
  - erewrite bind_Return by apply (getter_at fCw w self c Hc).
    erewrite bind_Return by apply (SetWindowSize_at w self c _ _ Hc Hbatch).
    set (c1 := with_window (fCw c) v (decorations w) c).
    set (w1 := set_pads (<[self := c1]> (pads w)) w).
    assert (H1 : pads w1 !! self = Some c1) by apply lookup_insert_eq.
    erewrite bind_Return by reflexivity.
    change (default false (attr_size_includes_decorations w1 !! self))
      with (default false (attr_size_includes_decorations w !! self)).
    destruct (default false (attr_size_includes_decorations w !! self));
      cbn [negb].
    + reflexivity.
    + erewrite bind_Return by apply (getter_at fCw w1 self c1 H1).
      erewrite bind_Return by apply (getter_at fCh w1 self c1 H1).
      rewrite (SetWindowSize_at w1 self c1 _ _ H1 Hbatch).
      subst w1 c1.
      change (decorations (set_pads _ w)) with (decorations w).
      rewrite with_window_compensated.
      unfold set_pads at 1. cbn [pads hists gPad next_handle gROOT_batch gStyle
        decorations KEEPALIVE attr__prev_pad attr_size_includes_decorations set_pads].
      now rewrite insert_insert_eq.
Qed.

Lemma resized_twice ww wh ww' wh' sid deco c :
  resized ww wh sid deco (resized ww' wh' sid deco c) = resized ww wh sid deco c.
Proof.
  unfold resized. destruct (fBatch c) eqn:Hb; [cbn; now rewrite Hb|].
  destruct sid; cbn; now rewrite Hb.
Qed.

Lemma resized_paintable ww wh sid deco c :
  fBatch c = true \/ sid = false ->
  fCw (resized ww wh sid deco c) = ww /\ fCh (resized ww wh sid deco c) = wh.
Proof.
  unfold resized. intros [Hb | ->].
  - rewrite Hb. split; reflexivity.
  - destruct (fBatch c); cbn; split; lia.
Qed.

Lemma set_pads_twice (m m' : gmap handle TPad) (w : World) :
  set_pads m (set_pads m' w) = set_pads m w.
Proof. reflexivity. Qed.

(** One assignment after another, on a canvas where an assignment gives
    what was asked for. *)
Lemma resize_then_resize (self : handle) (w : World) (c : TPad)
    (ww wh ww' wh' : Z) :
  let sid := default false (attr_size_includes_decorations w !! self) in
  let w1 := set_pads (<[self := resized ww wh sid (decorations w) c]> (pads w)) w in
  pads w1 !! self = Some (resized ww wh sid (decorations w) c)
  /\ default false (attr_size_includes_decorations w1 !! self) = sid
  /\ decorations w1 = decorations w
  /\ set_pads (<[self := resized ww' wh' sid (decorations w)
                           (resized ww wh sid (decorations w) c)]> (pads w1)) w1
     = set_pads (<[self := resized ww' wh' sid (decorations w) c]> (pads w)) w.
Proof.
  cbn zeta. split; [apply lookup_insert_eq|]. split; [reflexivity|].
  split; [reflexivity|].
  rewrite resized_twice, set_pads_twice.
  cbn [pads set_pads]. now rewrite insert_insert_eq.
Qed.

Lemma getter_after_resize {A} (f : TPad -> A) (self : handle) (w : World) (c : TPad) :
  let w' := set_pads (<[self := c]> (pads w)) w in
  (q <- the_pad self ;; ret (f q)) w' = (Return (f c), w').
Proof. cbn zeta. apply getter_at. apply lookup_insert_eq. Qed.

(** X2: the setter of [height] (and of [height_pixels], which is the same
    assignment) mirrors the one of [width]. In batch mode, or with a window
    and [size_includes_decorations] false, assigning [v] makes
    [height_pixels] equal [v] and leaves [width_pixels] as it was. With a
    window and [size_includes_decorations] true the window gets the height
    [v], so [height_pixels] is [v] less the decoration. *)
Theorem set_height_paintable_size
    (self : handle) (v : Z) (w : World) (c : TPad) :
  pads w !! self = Some c ->
  let sid := default false (attr_size_includes_decorations w !! self) in
  exists (w' : World) (c' : TPad),
    Canvas.set_height self v w = (Return tt, w')
    /\ Canvas.set_height_pixels self v w = (Return tt, w')
    /\ pads w' !! self = Some c'
    /\ Canvas.width_pixels self w = (Return (fCw c), w)
    /\ Canvas.width_pixels self w' = (Return (fCw c'), w')
    /\ Canvas.height_pixels self w' = (Return (fCh c'), w')
    /\ (fBatch c = true \/ sid = false -> fCh c' = v /\ fCw c' = fCw c)
    /\ (fBatch c = false -> sid = true ->
        fWindowHeight c' = v /\ fCh c' = v - snd (decorations w)).
Proof.
  intros Hc sid.
  exists (set_pads (<[self := resized (fCw c) v sid (decorations w) c]> (pads w)) w),
         (resized (fCw c) v sid (decorations w) c).
  split; [apply (set_height_runs self v w c Hc)|].
  split; [apply (set_height_runs self v w c Hc)|].
  split; [apply lookup_insert_eq|].
  split; [apply (getter_at fCw w self c Hc)|].
  split; [apply (getter_after_resize fCw)|].
  split; [apply (getter_after_resize fCh)|].
  split.
  - intros H. destruct (resized_paintable (fCw c) v sid (decorations w) c H).
    split; assumption.
  - intros Hb Hs. unfold resized. rewrite Hb, Hs. split; reflexivity.
Qed.

(** A canvas constructed with a window and [size_includes_decorations]
    false, 500 x 500 pixels: after [canvas.height = 300] it is 300 pixels
    high and still 500 wide. *)
Lemma set_height_300 :
  let w := snd (Canvas.__init__ 1%positive (Some 500) None None None false
                  (Scene.fresh false)) in
  exists w',
    Canvas.set_height 1%positive 300 w = (Return tt, w')
    /\ Canvas.width_pixels 1%positive w' = (Return 500, w')
    /\ Canvas.height_pixels 1%positive w' = (Return 300, w').
Proof.
  intros w.
  destruct (set_height_paintable_size 1%positive 300 w
              (with_window 504 528 (4, 28)
                 (new_canvas (Scene.fresh false) 1 10 10 500 500)))
    as (w' & c' & Hrun & _ & _ & _ & Hwp & Hhp & Hsize & _);
    [vm_compute; reflexivity|].
  destruct Hsize as [Hch Hcw]; [right; vm_compute; reflexivity|].
  exists w'. rewrite Hwp, Hhp, Hcw, Hch. repeat split; assumption.
Defined.

(** X3: on a canvas in batch mode, or with [size_includes_decorations]
    false, the two assignments compose: [width = v] then [height = u], in
    either order and through [width]/[height] or through
    [width_pixels]/[height_pixels], end in the same store, where the canvas
    is [v] x [u] pixels; and assigning the same width twice is assigning it
    once. *)
Theorem size_assignments_compose
    (self : handle) (v u : Z) (w : World) (c : TPad) :
  pads w !! self = Some c ->
  let sid := default false (attr_size_includes_decorations w !! self) in
  fBatch c = true \/ sid = false ->
  let final := set_pads (<[self := resized v u sid (decorations w) c]> (pads w)) w in
  (Canvas.set_width self v ;; Canvas.set_height self u) w = (Return tt, final)
  /\ (Canvas.set_height self u ;; Canvas.set_width self v) w = (Return tt, final)
  /\ Canvas.width_pixels self final = (Return v, final)
  /\ Canvas.height_pixels self final = (Return u, final)
  /\ (Canvas.set_width self v ;; Canvas.set_width self v) w
     = Canvas.set_width self v w
  /\ (Canvas.set_width_pixels self v ;; Canvas.set_height_pixels self u) w
     = (Return tt, final).
Proof.
  intros Hc sid Hok final.
  pose proof (resize_then_resize self w c) as Hnext. cbn zeta in Hnext.
  fold sid in Hnext.
  assert (Hwh : (Canvas.set_width self v ;; Canvas.set_height self u) w
                = (Return tt, final)).
  { rewrite (bind_Return _ _ _ _ _ (set_width_runs self v w c Hc)). fold sid.
    destruct (Hnext v (fCh c) v u) as (H1 & Hs & Hd & Hfin).
    rewrite (set_height_runs self u _ _ H1), Hs, Hd.
    destruct (resized_paintable v (fCh c) sid (decorations w) c Hok) as [-> _].
    now rewrite Hfin. }
  split; [exact Hwh|]. split; [|split; [|split; [|split; [|exact Hwh]]]].
  - rewrite (bind_Return _ _ _ _ _ (set_height_runs self u w c Hc)). fold sid.
    destruct (Hnext (fCw c) u v u) as (H1 & Hs & Hd & Hfin).
    rewrite (set_width_runs self v _ _ H1), Hs, Hd.
    destruct (resized_paintable (fCw c) u sid (decorations w) c Hok) as [_ ->].
    now rewrite Hfin.
  - unfold Canvas.width_pixels, GetWw. subst final.
    rewrite (getter_after_resize fCw).
    now destruct (resized_paintable v u sid (decorations w) c Hok) as [-> _].
  - unfold Canvas.height_pixels, GetWh. subst final.
    rewrite (getter_after_resize fCh).
    now destruct (resized_paintable v u sid (decorations w) c Hok) as [_ ->].
  - rewrite (bind_Return _ _ _ _ _ (set_width_runs self v w c Hc)). fold sid.
    destruct (Hnext v (fCh c) v (fCh c)) as (H1 & Hs & Hd & Hfin).
    rewrite (set_width_runs self v _ _ H1), Hs, Hd.
    destruct (resized_paintable v (fCh c) sid (decorations w) c Hok) as [_ ->].
    rewrite Hfin. symmetry. apply (set_width_runs self v w c Hc).
Qed.

(** The canvas of 500 x 500 pixels again: [width = 800] and [height = 300]
    give 800 x 300 pixels in either order. *)
Lemma resize_to_800_300 :
  let w := snd (Canvas.__init__ 1%positive (Some 500) None None None false
                  (Scene.fresh false)) in
  exists final,
    (Canvas.set_width 1%positive 800 ;; Canvas.set_height 1%positive 300) w
    = (Return tt, final)
    /\ (Canvas.set_height 1%positive 300 ;; Canvas.set_width 1%positive 800) w
       = (Return tt, final)
    /\ Canvas.width_pixels 1%positive final = (Return 800, final)
    /\ Canvas.height_pixels 1%positive final = (Return 300, final).
Proof.
  intros w.
  destruct (size_assignments_compose 1%positive 800 300 w
              (with_window 504 528 (4, 28)
                 (new_canvas (Scene.fresh false) 1 10 10 500 500)))
    as (Hwh & Hhw & Hwp & Hhp & _ & _);
    [vm_compute; reflexivity | right; vm_compute; reflexivity |].
  eexists. repeat split; eassumption.
Defined.

(** X4: with a window and [size_includes_decorations] true each assignment
    also shrinks the other side by the decoration: the setter passes the
    paintable size of that side where the window's is expected. *)
Theorem size_assignment_shrinks_other_side
    (self : handle) (v : Z) (w : World) (c : TPad) :
  pads w !! self = Some c ->
  fBatch c = false ->
  attr_size_includes_decorations w !! self = Some true ->
  (exists w',
     Canvas.set_width self v w = (Return tt, w')
     /\ Canvas.width_pixels self w' = (Return (v - fst (decorations w)), w')
     /\ Canvas.height_pixels self w'
        = (Return (fCh c - snd (decorations w)), w'))
  /\ (exists w',
        Canvas.set_height self v w = (Return tt, w')
        /\ Canvas.height_pixels self w' = (Return (v - snd (decorations w)), w')
        /\ Canvas.width_pixels self w'
           = (Return (fCw c - fst (decorations w)), w')).
Proof.
  intros Hc Hb Hs. split.
  - eexists. split; [apply (set_width_runs self v w c Hc)|].
    rewrite Hs. unfold Canvas.width_pixels, Canvas.height_pixels, GetWw, GetWh.
    rewrite (getter_after_resize fCw), (getter_after_resize fCh).
    unfold resized. rewrite Hb. split; reflexivity.
  - eexists. split; [apply (set_height_runs self v w c Hc)|].
    rewrite Hs. unfold Canvas.width_pixels, Canvas.height_pixels, GetWw, GetWh.
    rewrite (getter_after_resize fCw), (getter_after_resize fCh).
    unfold resized. rewrite Hb. split; reflexivity.
Qed.

(** A 700 x 500 window that counts its decoration of 4 x 28 pixels in:
    [height = 400] makes the canvas 372 pixels high, and 692 wide where it
    was 696. *)
Lemma set_height_400_with_decorations :
  let w := snd (Canvas.__init__ 1%positive (Some 700) (Some 500) None None true
                  (Scene.fresh false)) in
  exists w',
    Canvas.set_height 1%positive 400 w = (Return tt, w')
    /\ Canvas.height_pixels 1%positive w' = (Return 372, w')
    /\ Canvas.width_pixels 1%positive w' = (Return 692, w').
Proof.
  intros w.
  destruct (size_assignment_shrinks_other_side 1%positive 400 w
              (new_canvas (Scene.fresh false) 1 10 10 700 500))
    as [_ (w' & Hrun & Hh & Hw)]; try (vm_compute; reflexivity).
  exists w'. split; [exact Hrun|]. split; [exact Hh | exact Hw].
Defined.


(** ** The pixel getters only read *)

Lemma readonly_ret {A} (a : A) : readonly (ret a).
Proof. intros w. reflexivity. Qed.

Lemma readonly_bind {A B} (m : M World A) (k : A -> M World B) :
  readonly m -> (forall a, readonly (k a)) -> readonly (bind m k).
Proof.
  intros Hm Hk w. unfold bind. specialize (Hm w).
  destruct (m w) as [[a|e] w1]; cbn in *; subst w1; [apply Hk | reflexivity].
Qed.

Lemma readonly_the_pad self : readonly (the_pad self).
Proof. intros w. unfold the_pad. now destruct (pads w !! self). Qed.

Lemma readonly_getter {A} (f : TPad -> A) self :
  readonly (p <- the_pad self ;; ret (f p)).
Proof. apply readonly_bind; [apply readonly_the_pad | intros; apply readonly_ret]. Qed.

Lemma readonly_call {A} (r : ref) (method : handle -> M World A) :
  (forall h, readonly (method h)) -> readonly (call r method).
Proof. intros H. destruct r; [apply H | intros w; reflexivity]. Qed.

Lemma readonly_mother {C : Conversion} self : readonly (_PadBase.mother self).
Proof.
  apply readonly_bind; [apply (readonly_getter fMother) | intros; apply readonly_ret].
Qed.

Lemma readonly_canvas {C : Conversion} self : readonly (_PadBase.canvas self).
Proof.
  apply readonly_bind; [apply (readonly_getter fCanvas) | intros; apply readonly_ret].
Qed.

Lemma readonly_int_of_product a b : readonly (Pad.int_of_product a b).
Proof. intros w. unfold Pad.int_of_product. now destruct (py_mul (PyFloat a) b). Qed.

Lemma readonly_getattr_width self : readonly (Pad.getattr_width self).
Proof.
  apply readonly_bind; [apply readonly_the_pad|]. intros p.
  destruct (surface_class p);
    (apply readonly_bind; [apply readonly_getter | intros; apply readonly_ret]).
Qed.

Lemma readonly_getattr_height self : readonly (Pad.getattr_height self).
Proof.
  apply readonly_bind; [apply readonly_the_pad|]. intros p.
  destruct (surface_class p);
    (apply readonly_bind; [apply readonly_getter | intros; apply readonly_ret]).
Qed.

(** A loop whose body only reads ends in the store it started in. *)
Lemma while_readonly {St} (cond : St -> bool) (body : St -> M World St) :
  (forall st, readonly (body st)) ->
  forall fuel st w r, while fuel cond body st w = Some r -> snd r = w.
Proof.
  intros Hbody. induction fuel as [|fuel IH]; intros st w r H; [discriminate|].
  cbn in H. destruct (cond st).
  - pose proof (Hbody st w) as Hw.
    destruct (body st w) as [[st'|e] w1]; cbn in Hw; subst w1.
    + eapply IH, H.
    + now injection H as <-.
  - now injection H as <-.
Qed.

(** More fuel does not change what a loop that ended has returned. *)
Lemma while_more_fuel {St} (cond : St -> bool) (body : St -> M World St) :
  forall fuel fuel' st w r,
    while fuel cond body st w = Some r -> (fuel <= fuel')%nat ->
    while fuel' cond body st w = Some r.
Proof.
  induction fuel as [|fuel IH]; intros fuel' st w r H Hle; [discriminate|].
  destruct fuel' as [|fuel']; [lia|].
  cbn in *. destruct (cond st); [|exact H].
  destruct (body st w) as [[st'|e] w1]; [|exact H].
  eapply IH; [exact H | lia].
Qed.

Lemma around_loop_readonly {A B D} (m : M World A)
    (l : nat -> A -> World -> option (outcome B * World)) (k : B -> M World D) :
  readonly m ->
  (forall fuel a w r, l fuel a w = Some r -> snd r = w) ->
  (forall b, readonly (k b)) ->
  forall fuel w r, around_loop m (l fuel) k w = Some r -> snd r = w.
Proof.
  intros Hm Hl Hk fuel w r H. unfold around_loop in H.
  pose proof (Hm w) as Hw.
  destruct (m w) as [[a|e] w1]; cbn in Hw; subst w1;
    [|now injection H as <-].
  destruct (l fuel a w) as [[[b|e] w2]|] eqn:El; [| |discriminate].
  - apply Hl in El. cbn in El. subst w2. injection H as <-. apply Hk.
  - apply Hl in El. cbn in El. subst w2. now injection H as <-.
Qed.

Lemma around_loop_more_fuel {A B D} (m : M World A)
    (l : nat -> A -> World -> option (outcome B * World)) (k : B -> M World D) :
  (forall fuel fuel' a w r, l fuel a w = Some r -> (fuel <= fuel')%nat ->
                            l fuel' a w = Some r) ->
  forall fuel fuel' w r,
    around_loop m (l fuel) k w = Some r -> (fuel <= fuel')%nat ->
    around_loop m (l fuel') k w = Some r.
Proof.
  intros Hl fuel fuel' w r H Hle. unfold around_loop in *.
  destruct (m w) as [[a|e] w1]; [|exact H].
  destruct (l fuel a w1) as [r1|] eqn:El; [|discriminate].
  now rewrite (Hl _ _ _ _ _ El Hle).
Qed.

Section pixels_read.

Context {C : Conversion}.

Lemma readonly_walk_body (dim : TPad -> float) st : readonly (walk_body dim st).
Proof.
  destruct st as [mother x]. unfold walk_body.
  apply readonly_bind; [apply readonly_call; intros; apply readonly_getter|].
  intros xm. apply readonly_bind; [|intros; apply readonly_ret].
  apply readonly_call. intros. apply readonly_mother.
Qed.

(** X5: [width_pixels] and [height_pixels] only read: whatever they return
    or raise, the store is the one they started from; and once the walk
    has ended, more fuel gives the same result. *)
Theorem pixel_getters_only_read (fuel : nat) (self : handle) (w : World) :
  (forall r, Pad.width_pixels fuel self w = Some r ->
     snd r = w
     /\ forall fuel', (fuel <= fuel')%nat -> Pad.width_pixels fuel' self w = Some r)
  /\ (forall r, Pad.height_pixels fuel self w = Some r ->
        snd r = w
        /\ forall fuel', (fuel <= fuel')%nat ->
                         Pad.height_pixels fuel' self w = Some r).
Proof.
  assert (Hprefix : forall (f : TPad -> float),
            readonly (mother <- _PadBase.mother self ;;
                      canvas <- _PadBase.canvas self ;;
                      x <- (p <- the_pad self ;; ret (f p)) ;;
                      ret (canvas, (mother, x)))).
  { intros f. apply readonly_bind; [apply readonly_mother|]. intros m.
    apply readonly_bind; [apply readonly_canvas|]. intros c.
    apply readonly_bind; [apply readonly_getter | intros; apply readonly_ret]. }
  split; intros r H; split.
  - revert H.
    apply (around_loop_readonly _
             (fun fuel '(canvas, st) => Pad.width_pixels_while fuel canvas st)).
    + apply (Hprefix fWNDC).
    + intros fuel0 [canvas st] w0 r0 H0.
      eapply (while_readonly _ _ (readonly_walk_body fWNDC)), H0.
    + intros [mother x].
      apply readonly_bind; [apply readonly_call, readonly_getattr_width|].
      intros. apply readonly_int_of_product.
  - intros fuel' Hle. revert H Hle.
    apply (around_loop_more_fuel _
             (fun fuel '(canvas, st) => Pad.width_pixels_while fuel canvas st)).
    intros f f' [canvas st] w0 r0. apply while_more_fuel.
  - revert H.
    apply (around_loop_readonly _
             (fun fuel '(canvas, st) => Pad.height_pixels_while fuel canvas st)).
    + apply (Hprefix fHNDC).
    + intros fuel0 [canvas st] w0 r0 H0.
      eapply (while_readonly _ _ (readonly_walk_body fHNDC)), H0.
    + intros [mother x].
      apply readonly_bind; [apply readonly_call, readonly_getattr_height|].
      intros. apply readonly_int_of_product.
  - intros fuel' Hle. revert H Hle.
    apply (around_loop_more_fuel _
             (fun fuel '(canvas, st) => Pad.height_pixels_while fuel canvas st)).
    intros f f' [canvas st] w0 r0. apply while_more_fuel.
Qed.

End pixels_read.


(** ** Walks that do not reach the canvas *)

Section strays.

Context {C : Conversion}.

Lemma leads_to_cons_inv w canvas cur m ms last :
  leads_to w canvas cur (m :: ms) last = true ->
  cur <> canvas /\ cur = Some m
  /\ exists p, pads w !! m = Some p
       /\ leads_to w canvas (asrootpy (fMother p)) ms last = true.
Proof.
  cbn. intros H.
  apply andb_prop in H as [H Hrest]. apply andb_prop in H as [Hne Hcur].
  apply py_is_true in Hcur. split; [|split; [exact Hcur|]].
  - intros ->. rewrite py_is_refl in Hne. discriminate.
  - destruct (pads w !! m) as [p|]; [|discriminate]. eauto.
Qed.

(** The walk passes the surfaces of [ms] and goes on from [last]. *)
Lemma walk_along_path (dim : TPad -> float) (w : World) (canvas : ref)
    (ms : list handle) (last : ref) :
  forall (cur : ref) (acc : float) (fuel : nat),
    leads_to w canvas cur ms last = true ->
    while fuel (walk_cond canvas) (walk_body dim) (cur, acc) w
    = if (fuel <=? length ms)%nat then None
      else while (fuel - length ms) (walk_cond canvas) (walk_body dim)
             (last, fold_left PrimFloat.mul (along dim w ms) acc) w.
Proof.
  induction ms as [|m ms IH]; intros cur acc fuel Hpath.
  - cbn in Hpath. apply py_is_true in Hpath. subst cur.
    destruct fuel as [|fuel]; [reflexivity|].
    cbn [length Nat.leb along fold_left]. now rewrite Nat.sub_0_r.
  - apply leads_to_cons_inv in Hpath as (Hne & -> & p & Hp & Hrest).
    destruct fuel as [|fuel]; [reflexivity|].
    cbn [while].
    assert (Hc : walk_cond canvas (Some m, acc) = true).
    { unfold walk_cond, py_is. now rewrite bool_decide_eq_false_2. }
    rewrite Hc, (walk_body_step dim w m p acc Hp), (IH _ _ _ Hrest).
    cbn [along length Nat.leb Nat.sub]. rewrite Hp. reflexivity.
Qed.

(** Standing on a reference with nothing behind it, the walk raises. *)
Lemma walk_on_gone (dim : TPad -> float) (w : World) (canvas last : ref)
    (acc : float) (fuel : nat) :
  last <> canvas -> gone w last = true ->
  while (S fuel) (walk_cond canvas) (walk_body dim) (last, acc) w
  = Some (Raise (ReferenceError "attempt to access a null-pointer"), w).
Proof.
  intros Hne Hgone. cbn [while].
  assert (Hc : walk_cond canvas (last, acc) = true).
  { unfold walk_cond, py_is. now rewrite bool_decide_eq_false_2. }
  rewrite Hc. unfold walk_body.
  destruct last as [m|]; cbn in Hgone.
  - destruct (pads w !! m) eqn:Hm; [discriminate|].
    unfold call, bind, the_pad. now rewrite Hm.
  - reflexivity.
Qed.

(** Standing on a surface that is its own mother and is not the canvas,
    the walk never ends. *)
Lemma walk_on_own_mother (dim : TPad -> float) (w : World) (canvas : ref)
    (m : handle) (p : TPad) :
  Some m <> canvas -> pads w !! m = Some p -> asrootpy (fMother p) = Some m ->
  forall (fuel : nat) (acc : float),
    while fuel (walk_cond canvas) (walk_body dim) (Some m, acc) w = None.
Proof.
  intros Hne Hp Hself. induction fuel as [|fuel IH]; intros acc; [reflexivity|].
  cbn [while].
  assert (Hc : walk_cond canvas (Some m, acc) = true).
  { unfold walk_cond, py_is. now rewrite bool_decide_eq_false_2. }
  rewrite Hc, (walk_body_step dim w m p acc Hp), Hself. apply IH.
Qed.

(** X6: when the mother chain of a pad runs into a null reference, or into
    a surface that is gone, before it reaches the pad's canvas, both pixel
    getters raise once the walk gets there; they do not return a size. *)
Theorem pixels_raise_on_broken_chain
    (w : World) (self : handle) (p : TPad) (ms : list handle) (last : ref)
    (fuel : nat) :
  pads w !! self = Some p ->
  leads_to w (asrootpy (fCanvas p)) (asrootpy (fMother p)) ms last = true ->
  last <> asrootpy (fCanvas p) ->
  gone w last = true ->
  (length ms < fuel)%nat ->
  Pad.width_pixels fuel self w
  = Some (Raise (ReferenceError "attempt to access a null-pointer"), w)
  /\ Pad.height_pixels fuel self w
     = Some (Raise (ReferenceError "attempt to access a null-pointer"), w).
Proof.
  intros Hp Hpath Hne Hgone Hfuel.
  rewrite (width_pixels_unfold fuel self p w Hp),
    (height_pixels_unfold fuel self p w Hp).
  assert (Hw : Pad.width_pixels_while fuel (asrootpy (fCanvas p))
                 (asrootpy (fMother p), fWNDC p) w
               = Some (Raise (ReferenceError "attempt to access a null-pointer"), w)).
  { unfold Pad.width_pixels_while.
    etransitivity; [apply (walk_along_path fWNDC w _ ms last _ _ fuel Hpath)|].
    apply Nat.leb_gt in Hfuel. rewrite Hfuel.
    destruct (fuel - length ms)%nat as [|k] eqn:Hk;
      [apply Nat.leb_gt in Hfuel; lia|].
    now apply walk_on_gone. }
  assert (Hh : Pad.height_pixels_while fuel (asrootpy (fCanvas p))
                 (asrootpy (fMother p), fHNDC p) w
               = Some (Raise (ReferenceError "attempt to access a null-pointer"), w)).
  { unfold Pad.height_pixels_while.
    etransitivity; [apply (walk_along_path fHNDC w _ ms last _ _ fuel Hpath)|].
    apply Nat.leb_gt in Hfuel. rewrite Hfuel.
    destruct (fuel - length ms)%nat as [|k] eqn:Hk;
      [apply Nat.leb_gt in Hfuel; lia|].
    now apply walk_on_gone. }
  rewrite Hw, Hh. split; reflexivity.
Qed.

(** X7: when the mother chain of a pad runs into a surface that is its own
    mother (as a canvas is) and is not the pad's canvas, the walk of both
    pixel getters never ends: no amount of fuel gives a result. *)
Theorem pixels_diverge_on_foreign_top
    (w : World) (self m : handle) (p pm : TPad) (ms : list handle) :
  pads w !! self = Some p ->
  leads_to w (asrootpy (fCanvas p)) (asrootpy (fMother p)) ms (Some m) = true ->
  Some m <> asrootpy (fCanvas p) ->
  pads w !! m = Some pm ->
  asrootpy (fMother pm) = Some m ->
  forall fuel : nat,
    Pad.width_pixels fuel self w = None /\ Pad.height_pixels fuel self w = None.
Proof.
  intros Hp Hpath Hne Hm Hself fuel.
  rewrite (width_pixels_unfold fuel self p w Hp),
    (height_pixels_unfold fuel self p w Hp).
  assert (Hw : Pad.width_pixels_while fuel (asrootpy (fCanvas p))
                 (asrootpy (fMother p), fWNDC p) w = None).
  { unfold Pad.width_pixels_while.
    etransitivity; [apply (walk_along_path fWNDC w _ ms (Some m) _ _ fuel Hpath)|].
    destruct (fuel <=? length ms)%nat; [reflexivity|].
    now apply (walk_on_own_mother fWNDC w _ m pm). }
  assert (Hh : Pad.height_pixels_while fuel (asrootpy (fCanvas p))
                 (asrootpy (fMother p), fHNDC p) w = None).
  { unfold Pad.height_pixels_while.
    etransitivity; [apply (walk_along_path fHNDC w _ ms (Some m) _ _ fuel Hpath)|].
    destruct (fuel <=? length ms)%nat; [reflexivity|].
    now apply (walk_on_own_mother fHNDC w _ m pm). }
  rewrite Hw, Hh. split; reflexivity.
Qed.

End strays.

(** Pad 3 sits in pad 2, which has no mother: the walk from pad 3 passes
    pad 2 and raises on the null reference above it. *)
Lemma orphaned_pad_pixels_raise :
  Pad.width_pixels (C := Sim.in_place) 2 3%positive Strays.orphaned
  = Some (Raise (ReferenceError "attempt to access a null-pointer"),
          Strays.orphaned)
  /\ Pad.height_pixels (C := Sim.in_place) 2 3%positive Strays.orphaned
     = Some (Raise (ReferenceError "attempt to access a null-pointer"),
             Strays.orphaned).
Proof.
  apply (pixels_raise_on_broken_chain (C := Sim.in_place) Strays.orphaned
           3%positive (Scene.a_pad 2 1 1 0.25%float 0.5%float)
           [2%positive] None 2);
    try (vm_compute; reflexivity).
  discriminate.
Defined.

(** Pad 3 sits in canvas 2 and names canvas 1 as its canvas: 1000 turns of
    fuel are not enough. *)
Lemma foreign_pad_pixels_diverge :
  Pad.width_pixels (C := Sim.in_place) 1000 3%positive Strays.foreign = None
  /\ Pad.height_pixels (C := Sim.in_place) 1000 3%positive Strays.foreign = None.
Proof.
  apply (pixels_diverge_on_foreign_top (C := Sim.in_place) Strays.foreign
           3%positive 2%positive (Scene.a_pad 2 1 1 0.25%float 0.5%float)
           (Scene.a_canvas 2 400 300) []);
    try (vm_compute; reflexivity).
  discriminate.
Defined.


(** ** The histogram behind the axes *)

Lemma Hist_Draw_runs (self : handle) (option : string) (w : World) :
  exists w',
    Hist_Draw self option w = (Return tt, w')
    /\ hists w' = alter (with_drawn option) self (hists w)
    /\ (forall g, gPad w = Some g ->
          gPad w' = Some g /\ pads w' = alter (add_primitive self) g (pads w)).
Proof.
  unfold Hist_Draw, bind, gPad_func, gets.
  destruct (gPad w) as [g|] eqn:E; cbn; rewrite ?E; eexists;
    (split; [reflexivity|]); (split; [reflexivity|]).
  - intros g' [= <-]. split; [cbn; exact E | reflexivity].
  - intros g' [=].
Qed.

Lemma set_limits_if_given_runs (h : handle) (a : axis_id)
    (lim : option (num * num)) (w : World) :
  exists w',
    match lim with Some l => set_limits (h, a) l | None => ret tt end w
    = (Return tt, w')
    /\ hists w' = match lim with
                  | Some l => alter (with_limits a l) h (hists w)
                  | None => hists w
                  end
    /\ gPad w' = gPad w /\ pads w' = pads w.
Proof. destruct lim; eexists; repeat split. Qed.

(** The store once [axes] has drawn the histogram it made. *)
Lemma axes_after_hist_store (hist : handle) (ndim : Z)
    (xlimits ylimits zlimits : option (num * num)) (w : World) :
  exists w',
    (Hist_Draw hist "AXIS" ;;
     match xlimits with Some xl => set_limits (hist, AxisX) xl | None => ret tt end ;;
     match ylimits with Some yl => set_limits (hist, AxisY) yl | None => ret tt end ;;
     (if 1 <? ndim
      then match zlimits with
           | Some zl => set_limits (hist, AxisZ) zl
           | None => ret tt
           end
      else ret tt) ;;
     if 1 <? ndim
     then ret [(hist, AxisX); (hist, AxisY); (hist, AxisZ)]
     else ret [(hist, AxisX); (hist, AxisY)]) w
    = (Return (if 1 <? ndim
               then [(hist, AxisX); (hist, AxisY); (hist, AxisZ)]
               else [(hist, AxisX); (hist, AxisY)]), w')
    /\ (forall t, hists w !! hist = Some t ->
          hists w' !! hist
          = Some (mkTH1 (h_dim t) (h_args t) (h_drawn t ++ ["AXIS"])
                    (match xlimits with Some l => Some l | None => h_xlimits t end)
                    (match ylimits with Some l => Some l | None => h_ylimits t end)
                    (match (if 1 <? ndim then zlimits else None) with
                     | Some l => Some l
                     | None => h_zlimits t
                     end)))
    /\ (forall h, h <> hist -> hists w' !! h = hists w !! h)
    /\ (forall g, gPad w = Some g ->
          gPad w' = Some g /\ pads w' = alter (add_primitive hist) g (pads w)).
Proof.
  destruct (Hist_Draw_runs hist "AXIS" w) as (w1 & E1 & H1 & G1).
  rewrite (bind_Return _ _ _ _ _ E1).
  destruct (set_limits_if_given_runs hist AxisX xlimits w1) as (w2 & E2 & H2 & G2 & P2).
  rewrite (bind_Return _ _ _ _ _ E2).
  destruct (set_limits_if_given_runs hist AxisY ylimits w2) as (w3 & E3 & H3 & G3 & P3).
  rewrite (bind_Return _ _ _ _ _ E3).
  destruct (set_limits_if_given_runs hist AxisZ
              (if 1 <? ndim then zlimits else None) w3) as (w4 & E4 & H4 & G4 & P4).
  assert (E4' : (if 1 <? ndim
                 then match zlimits with
                      | Some zl => set_limits (hist, AxisZ) zl
                      | None => ret tt
                      end
                 else ret tt) w3 = (Return tt, w4)).
  { destruct (1 <? ndim); exact E4. }
  rewrite (bind_Return _ _ _ _ _ E4').
  exists w4. split; [now destruct (1 <? ndim)|]. split; [|split].
  - intros t Ht. rewrite H4.
    assert (Hx : hists w3 !! hist
                 = Some (mkTH1 (h_dim t) (h_args t) (h_drawn t ++ ["AXIS"])
                           (match xlimits with Some l => Some l | None => h_xlimits t end)
                           (match ylimits with Some l => Some l | None => h_ylimits t end)
                           (h_zlimits t))).
    { rewrite H3, H2, H1.
      destruct xlimits, ylimits;
        rewrite ?lookup_alter_eq, Ht; reflexivity. }
    destruct (if 1 <? ndim then zlimits else None);
      rewrite ?lookup_alter_eq, Hx; reflexivity.
  - intros h Hne. rewrite H4.
    assert (Hx : hists w3 !! h = hists w !! h).
    { rewrite H3, H2, H1.
      destruct xlimits, ylimits; now rewrite ?lookup_alter_ne by congruence. }
    destruct (if 1 <? ndim then zlimits else None);
      now rewrite ?lookup_alter_ne by congruence.
  - intros g Hg. destruct (G1 g Hg) as [Hg1 Hp1].
    rewrite G4, G3, G2, P4, P3, P2. split; assumption.
Qed.

(** X8: for [ndim] 1, 2 or 3 the histogram [axes] makes has [ndim]
    dimensions and, for each of them, the bins and the limits that were
    given (0 to 1 where none were); it is drawn once, with the option
    [AXIS], on the current pad, whichever pad [axes] was called on; the x, y
    and z limits given are set on its axes, except that [zlimits] are
    dropped when [ndim] is 1; no other histogram is touched. *)
Theorem axes_builds_the_skeleton (self : handle) (ndim : Z)
    (xlimits ylimits zlimits : option (num * num)) (xbins ybins zbins : num)
    (w : World) :
  ndim = 1 \/ ndim = 2 \/ ndim = 3 ->
  let w' := snd (_PadBase.axes self ndim xlimits ylimits zlimits xbins ybins zbins w) in
  hists w' !! next_handle w
  = Some (skeleton ndim xlimits ylimits zlimits xbins ybins zbins)
  /\ (forall h, h <> next_handle w -> hists w' !! h = hists w !! h)
  /\ (forall g, gPad w = Some g ->
        gPad w' = Some g
        /\ pads w' = alter (add_primitive (next_handle w)) g (pads w))
  /\ (forall self',
        _PadBase.axes self' ndim xlimits ylimits zlimits xbins ybins zbins w
        = _PadBase.axes self ndim xlimits ylimits zlimits xbins ybins zbins w).
Proof.
  intros Hndim w'.
  assert (Hrun : exists args w1,
            _PadBase.axes self ndim xlimits ylimits zlimits xbins ybins zbins w
            = (Hist_Draw (next_handle w) "AXIS" ;;
               match xlimits with
               | Some xl => set_limits (next_handle w, AxisX) xl | None => ret tt end ;;
               match ylimits with
               | Some yl => set_limits (next_handle w, AxisY) yl | None => ret tt end ;;
               (if 1 <? ndim
                then match zlimits with
                     | Some zl => set_limits (next_handle w, AxisZ) zl
                     | None => ret tt
                     end
                else ret tt) ;;
               if 1 <? ndim
               then ret [(next_handle w, AxisX); (next_handle w, AxisY);
                         (next_handle w, AxisZ)]
               else ret [(next_handle w, AxisX); (next_handle w, AxisY)]) w1
            /\ w1 = set_hists (<[next_handle w := mkTH1 ndim args [] None None None]>
                                 (hists w))
                      (set_next_handle (Pos.succ (next_handle w)) w)
            /\ mkTH1 ndim args ["AXIS"] xlimits ylimits
                 (if 1 <? ndim then zlimits else None)
               = skeleton ndim xlimits ylimits zlimits xbins ybins zbins).
  { unfold _PadBase.axes, skeleton, range_of.
    destruct Hndim as [-> | [-> | ->]]; cbn [Z.eqb Pos.eqb Z.ltb Z.compare Pos.compare Pos.compare_cont].
    - destruct xlimits as [xl|];
        (erewrite bind_Return by apply Hist_new_runs);
        eexists _, _; (split; [reflexivity|]); split; reflexivity.
    - destruct xlimits as [xl|], ylimits as [yl|];
        (erewrite bind_Return by apply Hist_new_runs);
        eexists _, _; (split; [reflexivity|]); split; reflexivity.
    - destruct xlimits as [xl|], ylimits as [yl|], zlimits as [zl|];
        (erewrite bind_Return by apply Hist_new_runs);
        eexists _, _; (split; [reflexivity|]); split; reflexivity. }
  destruct Hrun as (args & w1 & Hrun & Hw1 & Hskel).
  destruct (axes_after_hist_store (next_handle w) ndim xlimits ylimits zlimits w1)
    as (w2 & Htail & Hh & Hother & Hpad).
  assert (Hw' : w' = w2) by (unfold w'; rewrite Hrun, Htail; reflexivity).
  rewrite Hw'. split; [|split; [|split]].
  - rewrite (Hh (mkTH1 ndim args [] None None None))
      by (subst w1; apply lookup_insert_eq).
    cbn [h_dim h_args h_drawn h_xlimits h_ylimits h_zlimits app].
    rewrite <- Hskel. f_equal.
    destruct xlimits, ylimits, (if 1 <? ndim then zlimits else None); reflexivity.
  - intros h Hne. rewrite (Hother h Hne). subst w1.
    cbn [hists set_hists]. now rewrite lookup_insert_ne by congruence.
  - intros g Hg. subst w1. apply (Hpad g). exact Hg.
  - intros self'. reflexivity.
Qed.

(** On canvas 1, current: two-dimensional axes with 5 bins from 0 to 10 in
    x and nothing said about y. *)
Lemma axes_2d_skeleton :
  hists (snd (_PadBase.axes 1%positive 2 (Some (PyInt 0, PyInt 10)) None None
                (PyInt 5) (PyInt 1) (PyInt 1) Scene.nested)) !! 4%positive
  = Some (mkTH1 2 [PyInt 5; PyInt 0; PyInt 10; PyInt 1; PyInt 0; PyInt 1]
            ["AXIS"] (Some (PyInt 0, PyInt 10)) None None).
Proof.
  destruct (axes_builds_the_skeleton 1%positive 2 (Some (PyInt 0, PyInt 10))
              None None (PyInt 5) (PyInt 1) (PyInt 1) Scene.nested)
    as [Hh _]; [right; left; reflexivity|].
  exact Hh.
Defined.


(** ** No edge of the registry is ever removed *)

#[export] Instance registry_grows_tolerates : Tolerates registry_grows.
Proof.
  split; try (intros w v nurse patient H; exact H);
    try (intros w f h nurse patient H; exact H).
  split; [intros w nurse patient H; exact H | intros a b c Hab Hbc nurse patient H; auto].
Qed.

Lemma add_edge_keeps_edges a b reg nurse patient :
  has_edge reg nurse patient -> has_edge (add_edge a b reg) nurse patient.
Proof.
  intros (s & Hs & Hin). unfold has_edge, add_edge.
  destruct (decide (a = nurse)) as [->|Hne].
  - rewrite lookup_insert_eq, Hs. eexists. split; [reflexivity|]. set_solver.
  - rewrite lookup_insert_ne by exact Hne. eauto.
Qed.

Lemma grows_keepalive nurse patient : preserves registry_grows (keepalive nurse patient).
Proof. intros w a b H. cbn. now apply add_edge_keeps_edges. Qed.

Lemma preserves_py_with (R : relation World) {T : Tolerates R} {A}
    (enter : M World handle) (exit : option exn -> M World bool)
    (body : M World A) :
  preserves R enter -> (forall exc, preserves R (exit exc)) -> preserves R body ->
  preserves R (py_with enter exit body).
Proof.
  intros He Hx Hb w. unfold py_with.
  pose proof (He w) as H1. destruct (enter w) as [[h|e] w1]; cbn in H1; [|exact H1].
  pose proof (Hb w1) as H2. destruct (body w1) as [[a|e] w2]; cbn in H2.
  - pose proof (Hx None w2) as H3.
    destruct (exit None w2) as [[b|e'] w3]; cbn in *;
      (etransitivity; [exact H1 | etransitivity; [exact H2 | exact H3]]).
  - pose proof (Hx (Some e) w2) as H3.
    destruct (exit (Some e) w2) as [[[|]|e'] w3]; cbn in *;
      (etransitivity; [exact H1 | etransitivity; [exact H2 | exact H3]]).
Qed.

Section grows.

Context {C : Conversion}.

Lemma grows_cd self args : preserves registry_grows (_PadBase.cd self args).
Proof.
  unfold _PadBase.cd.
  apply preserves_bind; [typeclasses eauto | apply preserves_TPad_cd, _ |].
  intros r. apply preserves_bind; [typeclasses eauto | | intros; apply preserves_ret, _].
  destruct (truthy (asrootpy r) && negb (py_is (asrootpy r) (Some self)));
    [apply grows_keepalive | apply preserves_ret, _].
Qed.

Lemma grows_Draw self args : preserves registry_grows (Pad.Draw self args).
Proof.
  unfold Pad.Draw.
  apply preserves_bind; [typeclasses eauto | apply preserves_TPad_Draw, _ |].
  intros u. apply preserves_bind; [typeclasses eauto | apply preserves_getter, _ |].
  intros c. apply preserves_bind;
    [typeclasses eauto | apply grows_keepalive | intros; apply preserves_ret, _].
Qed.

Lemma grows_setattr__prev_pad self v :
  preserves registry_grows (setattr__prev_pad self v).
Proof. apply preserves_modify. intros w. apply tolerates_prev. Qed.

Lemma grows_enter self : preserves registry_grows (_PadBase.__enter__ self).
Proof.
  unfold _PadBase.__enter__, gPad_func.
  apply preserves_bind; [typeclasses eauto | apply preserves_gets, _ |].
  intros prev. apply preserves_bind;
    [typeclasses eauto | apply grows_setattr__prev_pad |].
  intros _. apply preserves_bind;
    [typeclasses eauto | apply grows_cd | intros; apply preserves_ret, _].
Qed.

Lemma grows_exit self exc : preserves registry_grows (_PadBase.__exit__ self exc).
Proof.
  unfold _PadBase.__exit__, gPad_func, with_invisible_canvas_pass.
  apply preserves_bind; [typeclasses eauto | apply preserves_getattr__prev_pad, _ |].
  intros prev. apply preserves_bind; [typeclasses eauto | |].
  - destruct (truthy prev).
    + apply preserves_bind; [typeclasses eauto | | intros; apply preserves_ret, _].
      destruct prev; [apply grows_cd | apply preserves_raise, _].
    + apply preserves_bind; [typeclasses eauto | apply preserves_gets, _ |].
      intros cur. destruct (truthy cur); [|apply preserves_ret, _].
      apply preserves_modify. intros w. apply tolerates_gPad.
  - intros _. apply preserves_bind;
      [typeclasses eauto | apply grows_setattr__prev_pad
      | intros; apply preserves_ret, _].
Qed.

(** X9: nothing in [canvas.py] takes an edge out of the keepalive
    registry: every edge there before [cd], [Draw], [__enter__],
    [__exit__], [axes], the construction of a canvas or an assignment to
    its size, is there after it, whether it returns or raises; and so is
    every edge there before a [with] block whose body removes none. *)
Theorem registry_never_shrinks (self : handle) :
  (forall args, preserves registry_grows (_PadBase.cd self args))
  /\ (forall args, preserves registry_grows (Pad.Draw self args))
  /\ preserves registry_grows (_PadBase.__enter__ self)
  /\ (forall exc, preserves registry_grows (_PadBase.__exit__ self exc))
  /\ (forall A (body : M World A),
        preserves registry_grows body ->
        preserves registry_grows (_PadBase.with_ self body))
  /\ (forall ndim xl yl zl xb yb zb,
        preserves registry_grows (_PadBase.axes self ndim xl yl zl xb yb zb))
  /\ (forall width height x y sid,
        preserves registry_grows (Canvas.__init__ self width height x y sid))
  /\ (forall v, preserves registry_grows (Canvas.set_width self v)
                /\ preserves registry_grows (Canvas.set_height self v)).
Proof.
  split; [intros; apply grows_cd|].
  split; [intros; apply grows_Draw|].
  split; [apply grows_enter|].
  split; [intros; apply grows_exit|].
  split.
  { intros A body Hbody. unfold _PadBase.with_.
    apply preserves_py_with;
      [typeclasses eauto | apply grows_enter | intros; apply grows_exit | exact Hbody]. }
  split; [intros; apply preserves_axes, _|].
  split; [intros; apply preserves_Canvas___init__, _|].
  intros v. split; [apply preserves_set_width, _ | apply preserves_set_height, _].
Qed.

End grows.

(** ** Blocks inside blocks *)

Section nesting.

Context {C : Conversion}.

Lemma TPad_cd_frame (p : handle) (args : list Z) (w : World) :
  pads (snd (TPad_cd p args w)) = pads w
  /\ attr__prev_pad (snd (TPad_cd p args w)) = attr__prev_pad w.
Proof.
  unfold TPad_cd, bind, the_pad.
  destruct (pads w !! p) as [ps|]; [|split; reflexivity].
  destruct args as [|[|n|n] [|a args]]; cbn; try (split; reflexivity);
    destruct (List.find _ _); split; reflexivity.
Qed.

Lemma cd_frame (p : handle) (args : list Z) (w : World) :
  pads (snd (_PadBase.cd p args w)) = pads w
  /\ attr__prev_pad (snd (_PadBase.cd p args w)) = attr__prev_pad w.
Proof.
  rewrite cd_runs. pose proof (TPad_cd_frame p args w) as H.
  destruct (TPad_cd p args w) as [[r|e] w1]; cbn in *; [|exact H].
  destruct (truthy (asrootpy r) && negb (py_is (asrootpy r) (Some p))); exact H.
Qed.

(** Entering a surface touches no surface and no record but its own. *)
Lemma enter_frame (inner : handle) (w : World) :
  pads (snd (_PadBase.__enter__ inner w)) = pads w
  /\ forall s, s <> inner ->
       attr__prev_pad (snd (_PadBase.__enter__ inner w)) !! s
       = attr__prev_pad w !! s.
Proof.
  unfold _PadBase.__enter__, gPad_func.
  erewrite bind_Return by reflexivity.
  erewrite bind_Return by reflexivity.
  set (w0 := set_attr__prev_pad (<[inner := gPad w]> (attr__prev_pad w)) w).
  pose proof (cd_frame inner [] w0) as [Hp Ha]. unfold bind.
  destruct (_PadBase.cd inner [] w0) as [[r|e] w1]; cbn in *;
    rewrite Hp, Ha; (split; [reflexivity|]);
    intros s Hs; now rewrite lookup_insert_ne by congruence.
Qed.

(** So does leaving it. *)
Lemma exit_frame (inner : handle) (exc : option exn) (w : World) :
  pads (snd (_PadBase.__exit__ inner exc w)) = pads w
  /\ forall s, s <> inner ->
       attr__prev_pad (snd (_PadBase.__exit__ inner exc w)) !! s
       = attr__prev_pad w !! s.
Proof.
  unfold _PadBase.__exit__, gPad_func.
  destruct (attr__prev_pad w !! inner) as [prev|] eqn:Hattr.
  2:{ assert (Hget : getattr__prev_pad inner w
                     = (Raise (no_attribute (type_name inner w) "_prev_pad"), w))
        by (unfold getattr__prev_pad; now rewrite Hattr).
      rewrite (bind_Raise _ _ _ _ _ Hget). split; reflexivity. }
  assert (Hget : getattr__prev_pad inner w = (Return prev, w))
    by (unfold getattr__prev_pad; now rewrite Hattr).
  rewrite (bind_Return _ _ _ _ _ Hget).
  destruct prev as [p|]; cbn [truthy].
  - unfold call. pose proof (cd_frame p [] w) as Hcdf.
    destruct (_PadBase.cd p [] w) as [[r|e] w1] eqn:Hcd;
      cbn [snd] in Hcdf; destruct Hcdf as [Hp Ha]; rewrite bind_assoc.
    + rewrite (bind_Return _ _ _ _ _ Hcd). cbn [snd].
      change (pads w1 = pads w
              /\ forall s, s <> inner ->
                   <[inner := None]> (attr__prev_pad w1) !! s = attr__prev_pad w !! s).
      rewrite Ha. split; [exact Hp|].
      intros s Hs. now rewrite lookup_insert_ne by congruence.
    + rewrite (bind_Raise _ _ _ _ _ Hcd). cbn [snd]. rewrite Hp, Ha.
      split; reflexivity.
  - rewrite bind_assoc. erewrite bind_Return by reflexivity.
    destruct (gPad w); cbn; (split; [reflexivity|]);
      intros s Hs; now rewrite lookup_insert_ne by congruence.
Qed.

(** A block on another surface is a body that keeps the scope. *)
Lemma inner_block_keeps_scope {A} (self inner : handle) (prev : ref)
    (body : M World A) :
  self <> inner -> keeps_scope self prev body ->
  keeps_scope self prev (_PadBase.with_ inner body).
Proof.
  intros Hne Hbody w Hattr Hlive.
  unfold _PadBase.with_, py_with.
  destruct (enter_frame inner w) as [Hp1 Ha1].
  destruct (_PadBase.__enter__ inner w) as [[h|e] w1]; cbn [snd] in *.
  2:{ rewrite (Ha1 self Hne), Hp1. split; assumption. }
  assert (Hattr1 : attr__prev_pad w1 !! self = Some prev)
    by (now rewrite (Ha1 self Hne)).
  assert (Hlive1 : forall p, prev = Some p -> is_Some (pads w1 !! p))
    by (intros p Hp; rewrite Hp1; auto).
  destruct (Hbody w1 Hattr1 Hlive1) as [Hattr2 Hlive2].
  destruct (body w1) as [[a|e] w2]; cbn [snd] in *.
  - destruct (exit_frame inner None w2) as [Hp3 Ha3].
    destruct (_PadBase.__exit__ inner None w2) as [[b|e'] w3]; cbn [snd] in *;
      rewrite (Ha3 self Hne), Hp3; split; assumption.
  - destruct (exit_frame inner (Some e) w2) as [Hp3 Ha3].
    destruct (_PadBase.__exit__ inner (Some e) w2) as [[[|]|e'] w3];
      cbn [snd] in *; rewrite (Ha3 self Hne), Hp3; split; assumption.
Qed.

(** What leaving a surface does, by the record it finds. *)
Lemma exit_clears (self : handle) (exc : option exn) (prev : ref) (w : World) :
  attr__prev_pad w !! self = Some prev ->
  (forall p, prev = Some p -> is_Some (pads w !! p)) ->
  exists w3,
    _PadBase.__exit__ self exc w = (Return false, w3)
    /\ gPad w3 = prev
    /\ attr__prev_pad w3 !! self = Some None.
Proof.
  intros Hattr Hlive. unfold _PadBase.__exit__.
  assert (Hget : getattr__prev_pad self w = (Return prev, w)).
  { unfold getattr__prev_pad. now rewrite Hattr. }
  rewrite (bind_Return _ _ _ _ _ Hget).
  destruct prev as [p|]; cbn [truthy].
  - destruct (Hlive p eq_refl) as [ps Hps].
    destruct (cd_no_args_runs p ps w Hps) as (w' & Hcd & Hg & _ & _).
    unfold call. rewrite bind_assoc, (bind_Return _ _ _ _ _ Hcd).
    eexists. split; [reflexivity|]. split; [exact Hg | apply lookup_insert_eq].
  - unfold gPad_func. rewrite bind_assoc.
    erewrite bind_Return by reflexivity.
    destruct (gPad w) as [g|] eqn:Hg; cbn [truthy].
    + eexists. split; [reflexivity|]. split; [reflexivity | apply lookup_insert_eq].
    + eexists. split; [reflexivity|]. split; [exact Hg | apply lookup_insert_eq].
Qed.

(** The current pad after a block whose body keeps the scope. *)
Lemma with_puts_back {A} (self : handle) (body : M World A) (w : World) :
  (forall p, gPad w = Some p -> is_Some (pads w !! p)) ->
  keeps_scope self (gPad w) body ->
  gPad (snd (_PadBase.with_ self body w)) = gPad w.
Proof.
  intros Hlive Hkeeps. unfold _PadBase.with_, py_with.
  destruct (pads w !! self) as [ps|] eqn:Hself.
  - destruct (enter_runs self ps w Hself) as (w1 & Henter & _ & Hpads & Hattr).
    rewrite Henter.
    assert (Hlive1 : forall p, gPad w = Some p -> is_Some (pads w1 !! p))
      by (intros p Hp; rewrite Hpads; auto).
    destruct (Hkeeps w1 Hattr Hlive1) as [Hattr2 Hlive2].
    destruct (body w1) as [[a|e] w2] eqn:Hbody; cbn [snd] in *.
    + destruct (exit_clears self None (gPad w) w2 Hattr2 Hlive2)
        as (w3 & Hexit & Hg & _).
      now rewrite Hexit.
    + destruct (exit_clears self (Some e) (gPad w) w2 Hattr2 Hlive2)
        as (w3 & Hexit & Hg & _).
      now rewrite Hexit.
  - destruct (enter_fails self w Hself) as (e & w1 & Henter & Hg).
    now rewrite Henter.
Qed.

(** X10: blocks on different surfaces nest. A block on another surface
    leaves the record of the outer one in place, so after
    [with self: with inner: body] the current pad is the one from before
    the outer block, on every way out of either block. *)
Theorem with_blocks_on_distinct_surfaces_nest {A}
    (self inner : handle) (body : M World A) (w : World) :
  self <> inner ->
  (forall p, gPad w = Some p -> is_Some (pads w !! p)) ->
  keeps_scope self (gPad w) body ->
  keeps_scope self (gPad w) (_PadBase.with_ inner body)
  /\ gPad (snd (_PadBase.with_ self (_PadBase.with_ inner body) w)) = gPad w.
Proof.
  intros Hne Hlive Hbody.
  pose proof (inner_block_keeps_scope self inner (gPad w) body Hne Hbody) as Hin.
  split; [exact Hin|]. now apply with_puts_back.
Qed.

(** Leaving a surface with nothing recorded and nothing current is a step
    that changes nothing. *)
Lemma record_cleared_again (self : handle) (w : World) :
  attr__prev_pad w !! self = Some None ->
  set_attr__prev_pad (<[self := None]> (attr__prev_pad w)) w = w.
Proof.
  intros Hattr. destruct w. unfold set_attr__prev_pad. cbn in *.
  now rewrite insert_id.
Qed.

(** X11: [__exit__] depends on the record [__enter__] left. On a surface
    that was never entered it raises the [AttributeError] Python raises for
    a missing attribute, naming the class of the surface, and changes
    nothing. With a recorded pad that is still there it makes that pad
    current, resets the record to [None], leaves every surface as it was
    and returns [False]. With the record [None] and no current pad it
    returns [False] and changes nothing. *)
Theorem exit_follows_the_record (self : handle) (exc : option exn) (w : World) :
  (forall ps,
     pads w !! self = Some ps ->
     attr__prev_pad w !! self = None ->
     _PadBase.__exit__ self exc w
     = (Raise (AttributeError
                 ("'" +:+ class_name (surface_class ps)
                  +:+ "' object has no attribute '_prev_pad'")), w))
  /\ (attr__prev_pad w !! self = None ->
      exists msg, _PadBase.__exit__ self exc w = (Raise (AttributeError msg), w))
  /\ (forall prev pp,
        attr__prev_pad w !! self = Some (Some prev) ->
        pads w !! prev = Some pp ->
        exists w3,
          _PadBase.__exit__ self exc w = (Return false, w3)
          /\ gPad w3 = Some prev
          /\ attr__prev_pad w3 !! self = Some None
          /\ pads w3 = pads w
          /\ forall s, s <> self -> attr__prev_pad w3 !! s = attr__prev_pad w !! s)
  /\ (attr__prev_pad w !! self = Some None ->
      gPad w = None ->
      _PadBase.__exit__ self exc w = (Return false, w)).
Proof.
  split; [|split; [|split]].
  - intros ps Hself Hnone.
    unfold _PadBase.__exit__, bind, getattr__prev_pad, type_name.
    now rewrite Hnone, Hself.
  - intros Hnone. eexists.
    unfold _PadBase.__exit__, bind, getattr__prev_pad.
    rewrite Hnone. reflexivity.
  - intros prev pp Hattr Hprev.
    destruct (exit_clears self exc (Some prev) w Hattr) as (w3 & Hexit & Hg & Hrec).
    { intros p [= <-]. eauto. }
    destruct (exit_frame self exc w) as [Hpads Hattrs].
    rewrite Hexit in Hpads, Hattrs. cbn [snd] in Hpads, Hattrs.
    exists w3. repeat (split; [assumption|]). exact Hattrs.
  - intros Hattr Hg. unfold _PadBase.__exit__.
    assert (Hget : getattr__prev_pad self w = (Return None, w))
      by (unfold getattr__prev_pad; now rewrite Hattr).
    rewrite (bind_Return _ _ _ _ _ Hget). cbn [truthy].
    unfold gPad_func, gets, setattr__prev_pad, modify, bind, ret.
    rewrite Hg. cbn [truthy].
    now rewrite (record_cleared_again self w Hattr).
Qed.

End nesting.

(** Canvas 1 is current; a block on pad 2 around a block on pad 3 puts
    canvas 1 back. *)
Lemma nested_blocks_restore :
  gPad (snd (_PadBase.with_ (C := Sim.in_place) 2%positive
               (_PadBase.with_ (C := Sim.in_place) 3%positive (ret tt))
               Scene.nested))
  = Some 1%positive.
Proof.
  destruct (with_blocks_on_distinct_surfaces_nest (C := Sim.in_place)
              2%positive 3%positive (ret tt) Scene.nested) as [_ Hg].
  - discriminate.
  - intros p [= <-]. vm_compute. eauto.
  - intros w Hattr Hlive. split; assumption.
  - exact Hg.
Defined.

(** Canvas 2 was never entered: leaving it raises, in Python's words. *)
Lemma exit_without_enter :
  _PadBase.__exit__ (C := Sim.in_place) 2%positive None Scene.two_canvases
  = (Raise (AttributeError "'Canvas' object has no attribute '_prev_pad'"),
     Scene.two_canvases).
Proof.
  destruct (exit_follows_the_record (C := Sim.in_place)
              2%positive None Scene.two_canvases) as [Hraise _].
  apply (Hraise (Scene.a_canvas 2 400 300)); reflexivity.
Defined.


(** ** A pad drawn on a canvas *)

Lemma alike_refl a : alike a a.
Proof. repeat split. Qed.

Lemma detached_lookup (self m k : handle) (x : TPad) (pads0 : gmap handle TPad) :
  pads0 !! k = Some x ->
  exists x', alter (remove_primitive self) m pads0 !! k = Some x'
    /\ alike x' x /\ fMother x' = fMother x /\ fCanvas x' = fCanvas x.
Proof.
  intros Hk. rewrite lookup_alter.
  destruct (decide (m = k)) as [->|Hne].
  - rewrite Hk. eexists. split; [reflexivity|]. repeat split.
  - exists x. split; [exact Hk|]. repeat split.
Qed.

(** The native draw of a pad onto the current pad, another surface. *)
Lemma TPad_Draw_onto (self g : handle) (p pg : TPad) (args : list string)
    (w : World) :
  pads w !! self = Some p -> gPad w = Some g -> g <> self ->
  pads w !! g = Some pg ->
  exists w3 p' pg',
    TPad_Draw self args w = (Return tt, w3)
    /\ pads w3 !! self = Some p' /\ alike p' p
    /\ fMother p' = Some g /\ fCanvas p' = fCanvas pg
    /\ pads w3 !! g = Some pg' /\ alike pg' pg
    /\ In self (fPrimitives pg').
Proof.
  intros Hp Hg Hne Hpg. unfold TPad_Draw, gPad_func.
  rewrite (bind_Return _ _ _ _ _ (the_pad_at w self p Hp)).
  erewrite bind_Return by reflexivity. rewrite Hg. cbn [truthy].
  erewrite bind_Return by reflexivity.
  erewrite bind_Return by reflexivity. rewrite Hg.
  assert (Hnot : py_is (Some g) (Some self) = false)
    by (unfold py_is; apply bool_decide_eq_false_2; congruence).
  rewrite Hnot. unfold call.
  rewrite (bind_Return _ _ _ _ _ (the_pad_at w g pg Hpg)).
  rewrite (bind_Return _ _ _ _ _ (the_pad_at w self p Hp)).
  assert (Hdetach : exists w1 p1 pg1,
            match fMother p with
            | Some m =>
                modify (fun w => set_pads (alter (remove_primitive self) m (pads w)) w)
            | None => ret tt
            end w = (Return tt, w1)
            /\ pads w1 !! self = Some p1 /\ alike p1 p
            /\ pads w1 !! g = Some pg1 /\ alike pg1 pg).
  { destruct (fMother p) as [m|].
    - destruct (detached_lookup self m self p (pads w) Hp) as (p1 & H1 & A1 & _).
      destruct (detached_lookup self m g pg (pads w) Hpg) as (pg1 & H2 & A2 & _).
      eexists _, p1, pg1. split; [reflexivity|].
      split; [exact H1|]. split; [exact A1|]. split; [exact H2 | exact A2].
    - exists w, p, pg. split; [reflexivity|].
      split; [exact Hp|]. split; [apply alike_refl|].
      split; [exact Hpg | apply alike_refl]. }
  destruct Hdetach as (w1 & p1 & pg1 & Hrun1 & Hp1 & Ap1 & Hpg1 & Apg1).
  rewrite (bind_Return _ _ _ _ _ Hrun1).
  rewrite (bind_Return _ _ _ _ _
             (update_pad_at w1 self p1 (with_parent (Some g) (fCanvas pg)) Hp1)).
  set (w2 := set_pads (<[self := with_parent (Some g) (fCanvas pg) p1]> (pads w1)) w1).
  assert (Hpg2 : pads w2 !! g = Some pg1).
  { unfold w2. cbn [pads set_pads]. now rewrite lookup_insert_ne by congruence. }
  rewrite (update_pad_at w2 g pg1 (add_primitive self) Hpg2).
  eexists _, (with_parent (Some g) (fCanvas pg) p1), (add_primitive self pg1).
  split; [reflexivity|]. cbn [pads set_pads].
  split.
  { rewrite lookup_insert_ne by congruence. unfold w2. cbn [pads set_pads].
    apply lookup_insert_eq. }
  split; [exact Ap1|]. split; [reflexivity|]. split; [reflexivity|].
  split; [apply lookup_insert_eq|]. split; [exact Apg1|].
  cbn. apply in_or_app. right. now left.
Qed.

Section drawn.

Context {C : Conversion}.

(** X12: drawing a pad while a canvas is the current pad attaches the pad
    to that canvas: [Draw] returns, the canvas owns the pad in the keepalive
    registry and is its mother, and from then on the pad's size in pixels is
    its normalized size times the size of the canvas,
    [int(w * W)] by [int(h * H)]. *)
Theorem drawn_pad_pixels
    (self g : handle) (p pg : TPad) (args : list string) (w : World) (fuel : nat) :
  pads w !! self = Some p ->
  gPad w = Some g -> g <> self ->
  pads w !! g = Some pg ->
  surface_class pg = Canvas_class -> fCanvas pg = Some g ->
  asrootpy (Some g) = Some g ->
  (0 < fuel)%nat ->
  exists w',
    Pad.Draw self args w = (Return tt, w')
    /\ has_edge (KEEPALIVE w') (Some g) (Some self)
    /\ _PadBase.mother self w' = (Return (Some g), w')
    /\ _PadBase.canvas self w' = (Return (Some g), w')
    /\ Pad.width_pixels fuel self w'
       = Some (py_int_product (PyFloat (fWNDC p)) [PyInt (fCw pg)], w')
    /\ Pad.height_pixels fuel self w'
       = Some (py_int_product (PyFloat (fHNDC p)) [PyInt (fCh pg)], w').
Proof.
  intros Hp Hg Hne Hpg Hclass Hcanvas Hconv Hfuel.
  destruct (TPad_Draw_onto self g p pg args w Hp Hg Hne Hpg)
    as (w3 & p' & pg' & Hdraw & Hp' & Ap & Hmother & Hcanvas' & Hpg' & Apg & _).
  pose proof (Draw_runs self args w) as HD. rewrite Hdraw in HD.
  destruct HD as (p0 & Hp0 & HD).
  assert (p0 = p') by congruence. subst p0.
  rewrite Hcanvas', Hcanvas in HD.
  set (w' := set_KEEPALIVE (add_edge (Some g) (Some self) (KEEPALIVE w)) w3) in *.
  assert (Hself' : pads w' !! self = Some p') by exact Hp'.
  assert (Hg' : pads w' !! g = Some pg') by exact Hpg'.
  destruct Ap as (_ & Aw & Ah & _). destruct Apg as (Ac & _ & _ & Acw & Ach).
  exists w'. split; [exact HD|].
  split; [apply add_edge_has_edge|].
  split.
  { unfold _PadBase.mother, GetMother.
    erewrite bind_Return by apply (getter_at fMother w' self p' Hself').
    now rewrite Hmother, Hconv. }
  split.
  { unfold _PadBase.canvas, GetCanvas.
    erewrite bind_Return by apply (getter_at fCanvas w' self p' Hself').
    now rewrite Hcanvas', Hcanvas, Hconv. }
  assert (Hchain : is_chain w' (Some g) (Some g) [] = true) by apply py_is_refl.
  assert (Hleb : (fuel <=? 0)%nat = false) by (apply Nat.leb_gt; exact Hfuel).
  split.
  - rewrite (width_pixels_unfold fuel self p' w' Hself').
    rewrite Hcanvas', Hcanvas, Hmother, Hconv.
    rewrite (width_pixels_while_chain w' (Some g) [] _ _ fuel Hchain).
    cbn [length]. rewrite Hleb. unfold call.
    erewrite bind_Return
      by (apply (getattr_width_canvas g pg' w' Hg'); congruence).
    pose proof (int_of_product_chain [] (fWNDC p') (PyInt (fCw pg')) w') as Hint.
    cbn [map app along fold_left] in *. rewrite Hint. now rewrite Aw, Acw.
  - rewrite (height_pixels_unfold fuel self p' w' Hself').
    rewrite Hcanvas', Hcanvas, Hmother, Hconv.
    rewrite (height_pixels_while_chain w' (Some g) [] _ _ fuel Hchain).
    cbn [length]. rewrite Hleb. unfold call.
    erewrite bind_Return
      by (apply (getattr_height_canvas g pg' w' Hg'); congruence).
    pose proof (int_of_product_chain [] (fHNDC p') (PyInt (fCh pg')) w') as Hint.
    cbn [map app along fold_left] in *. rewrite Hint. now rewrite Ah, Ach.
Qed.

End drawn.

(** Pad 3, a quarter wide and half high, sits in pad 2; drawn again while
    canvas 1 (800 x 600) is current it moves to the canvas and is 200 x 300
    pixels. *)
Lemma redrawn_pad_pixels :
  exists w',
    Pad.Draw 3%positive [] Scene.nested = (Return tt, w')
    /\ Pad.width_pixels (C := Sim.in_place) 1 3%positive w' = Some (Return 200, w')
    /\ Pad.height_pixels (C := Sim.in_place) 1 3%positive w' = Some (Return 300, w').
Proof.
  destruct (drawn_pad_pixels (C := Sim.in_place) 3%positive 1%positive
              (Scene.a_pad 2 1 1 0.25%float 0.5%float)
              (add_primitive 2 (Scene.a_canvas 1 800 600)) [] Scene.nested 1)
    as (w' & Hdraw & _ & _ & _ & Hw & Hh);
    try (vm_compute; reflexivity); try discriminate.
  exists w'. split; [exact Hdraw|]. rewrite Hw, Hh.
  split; vm_compute; reflexivity.
Defined.
